(** * Verification development for yts (youtube-script-search)

    Shallow embedding of [src/yts/summarize.py] ([YoutubeSummarize]) and of
    the QA entry point of [src/yts/__main__.py].

    Modelling conventions:
    - Python [str] values are lists of Unicode code points ([pystr]).
    - Python [float] times are exact rationals [Q]; floor division [a // b]
      is [Qfloor (a / b)], raising [ZeroDivisionError] when [b] is zero.
    - The language-model chain and the QA answering object are external
      collaborators, passed as functions.
    - The process state ([world]) holds the environment, the files and
      directories, the chain calls made, the printed output and the queries
      answered; text files are written as UTF-8 and read with universal
      newlines. *)

From Stdlib Require Import String Ascii.
From Stdlib Require Import List Bool Arith ZArith Lia QArith Qround Lqa Permutation.
Import ListNotations.

Open Scope Z_scope.

(** ** Python values *)

Definition pystr := list N.

(** Python exceptions raised on the modelled paths. *)
Inductive py_error :=
  | ZeroDivisionError
  | IndexError
  | KeyError
  | EOFError
  | JSONDecodeError
  | TypeError
  | FileNotFoundError
  | IsADirectoryError
  | UnicodeEncodeError
  | ValueError
  | FileExistsError
  | NotADirectoryError
  | ChainError.

(** Outcome of a pure computation that may raise. *)
Inductive outcome (A : Type) :=
  | Ret (a : A)
  | Exc (e : py_error).
Arguments Ret {A} a.
Arguments Exc {A} e.

(** [TranscriptChunkModel]: [id], [text], [start], [duration]. *)
Record chunk := mk_chunk {
  cid : pystr;
  text : pystr;
  start : Q;
  duration : Q
}.

(** Python's [lst[i]] index resolution: negative indices count from the end;
    [None] is an [IndexError]. *)
Definition py_index (len : nat) (i : Z) : option nat :=
  let j := if i <? 0 then i + Z.of_nat len else i in
  if (0 <=? j) && (j <? Z.of_nat len) then Some (Z.to_nat j) else None.

(** Apply [f] to the [n]-th element of a list. *)
Fixpoint list_modify {A} (f : A -> A) (n : nat) (l : list A) : list A :=
  match l, n with
  | [], _ => []
  | x :: r, O => f x :: r
  | x :: r, S m => x :: list_modify f m r
  end.

(** [lst[i].append(x)] on a list of lists. *)
Definition py_append_at {A} (l : list (list A)) (i : Z) (x : A)
  : outcome (list (list A)) :=
  match py_index (length l) i with
  | Some n => Ret (list_modify (fun b => b ++ [x]) n l)
  | None => Exc IndexError
  end.

(** Python [float // float]. *)
Definition py_floordiv (a b : Q) : outcome Z :=
  if Qeq_bool b 0%Q then Exc ZeroDivisionError else Ret (Qfloor (a / b)%Q).

(** ** [YoutubeSummarize._divide_chunks_by_time] *)

(** The body of [for tc in self.chunks:]. *)
Fixpoint divide_loop (split_num : Z) (delta : Q) (tcs : list chunk)
    (splited_chunks : list (list chunk)) : outcome (list (list chunk)) :=
  match tcs with
  | [] => Ret splited_chunks
  | tc :: rest =>
      match py_floordiv (start tc) delta with
      | Exc e => Exc e
      | Ret idx0 =>
          let idx := if idx0 <? split_num then idx0 else split_num in
          let sc := if Z.of_nat (length splited_chunks) <? idx + 1
                    then splited_chunks ++ [[]] else splited_chunks in
          match py_append_at sc idx tc with
          | Exc e => Exc e
          | Ret sc' => divide_loop split_num delta rest sc'
          end
      end
  end.

Definition nonempty {A} (l : list A) : bool := negb (Nat.eqb (length l) 0).

(** [self.chunks[-1]]. *)
Definition py_last {A} (l : list A) : outcome A :=
  match rev l with
  | x :: _ => Ret x
  | [] => Exc IndexError
  end.

Definition divide_chunks_by_time (chunks : list chunk) (split_num : Z)
  : outcome (list (list chunk)) :=
  match py_last chunks with
  | Exc e => Exc e
  | Ret lastc =>
      let total_time := (start lastc + duration lastc)%Q in
      match py_floordiv total_time (inject_Z split_num) with
      | Exc e => Exc e
      | Ret d =>
          let delta := inject_Z d in
          match divide_loop split_num delta chunks
                  (repeat [] (Z.to_nat split_num)) with
          | Exc e => Exc e
          | Ret sc => Ret (filter nonempty sc)
          end
      end
  end.

(** A chunk with the given start and duration (id and text are irrelevant to
    bucketing). *)
Definition ck (s d : Q) : chunk := mk_chunk [] [] s d.

Definition bucket_sizes (o : outcome (list (list chunk))) : option (list nat) :=
  match o with Ret bs => Some (map (@length chunk) bs) | Exc _ => None end.

(** The bucket index of a chunk in the spec's words:
    [min(floor(chunk.start / bucket_width), split_num)]. *)
Definition spec_bucket_index (split_num bucket_width : Z) (c : chunk) : Z :=
  Z.min (Qfloor (start c / inject_Z bucket_width)%Q) split_num.

(** The chunks of [p] with spec bucket index [k], in input order. *)
Definition spec_group (split_num bucket_width : Z) (p : list chunk) (k : nat)
  : list chunk :=
  filter (fun c => spec_bucket_index split_num bucket_width c =? Z.of_nat k) p.

(** Bucketing in the spec's words: the non-empty groups of indices
    [0 .. split_num], in ascending index order. *)
Definition spec_buckets (split_num bucket_width : Z) (p : list chunk)
  : list (list chunk) :=
  filter nonempty
    (map (spec_group split_num bucket_width p) (seq 0 (Z.to_nat split_num + 1))).

(** [bucket_width] as computed by the source from the last chunk. *)
Definition bucket_width_of (chunks : list chunk) (split_num : Z) : Z :=
  match rev chunks with
  | c :: _ => Qfloor ((start c + duration c) / inject_Z split_num)%Q
  | [] => 0
  end.

(** Well-formed transcript data: time offsets are non-negative. *)
Definition times_nonneg (chunks : list chunk) : Prop :=
  forall c, In c chunks -> (0 <= start c)%Q /\ (0 <= duration c)%Q.

(** ** The [json] module, for the values a summary record contains *)

Open Scope N_scope.

Set Warnings "-register-all".

(** JSON values of the modelled fragment: strings, arrays, objects (as the
    ordered key/value pairs of a Python dict) and the literals. Numbers are
    outside the fragment. *)
Inductive json :=
  | JStr (s : pystr)
  | JArr (l : list json)
  | JObj (kv : list (pystr * json))
  | JNull
  | JBool (b : bool).

(** Lower-case hexadecimal digit, as produced by ['{0:04x}'.format(i)]. *)
Definition hex_digit (d : N) : N := if d <? 10 then 48 + d else 87 + d.

(** [ESCAPE_DCT] of [json.encoder]: the escape of one character when
    [ensure_ascii=False]; other characters are kept literal. *)
Definition encode_char (c : N) : pystr :=
  if c =? 34 then [92; 34]
  else if c =? 92 then [92; 92]
  else if c =? 8 then [92; 98]
  else if c =? 12 then [92; 102]
  else if c =? 10 then [92; 110]
  else if c =? 13 then [92; 114]
  else if c =? 9 then [92; 116]
  else if c <? 32 then [92; 117; 48; 48; hex_digit (c / 16); hex_digit (c mod 16)]
  else [c].

(** [py_encode_basestring]. *)
Definition encode_basestring (s : pystr) : pystr :=
  [34] ++ flat_map encode_char s ++ [34].

Definition item_sep : pystr := [44; 32].   (* ", " *)
Definition key_sep : pystr := [58; 32].    (* ": " *)

(** [sep.join(parts)]. *)
Fixpoint join (sep : pystr) (parts : list pystr) : pystr :=
  match parts with
  | [] => []
  | [x] => x
  | x :: r => x ++ sep ++ join sep r
  end.

(** [json.dumps(obj, ensure_ascii=False)] with the default separators. *)
Fixpoint dumps (v : json) : pystr :=
  match v with
  | JStr s => encode_basestring s
  | JArr l => [91] ++ join item_sep (map dumps l) ++ [93]
  | JObj kv =>
      [123] ++
      join item_sep (map (fun '(k, x) => encode_basestring k ++ key_sep ++ dumps x) kv)
      ++ [125]
  | JNull => [110; 117; 108; 108]
  | JBool true => [116; 114; 117; 101]
  | JBool false => [102; 97; 108; 115; 101]
  end.

(** JSON insignificant whitespace: space, tab, newline, carriage return. *)
Definition is_json_ws (c : N) : bool :=
  (c =? 32) || (c =? 9) || (c =? 10) || (c =? 13).

Fixpoint skip_ws (s : pystr) : pystr :=
  match s with
  | c :: r => if is_json_ws c then skip_ws r else s
  | [] => []
  end.

Definition hex_value (c : N) : option N :=
  if (48 <=? c) && (c <=? 57) then Some (c - 48)
  else if (97 <=? c) && (c <=? 102) then Some (c - 87)
  else if (65 <=? c) && (c <=? 70) then Some (c - 55)
  else None.

(** Four hexadecimal digits of a [\uXXXX] escape. *)
Definition hex4 (a b c d : N) : option N :=
  match hex_value a, hex_value b, hex_value c, hex_value d with
  | Some x, Some y, Some z, Some w => Some (((x * 16 + y) * 16 + z) * 16 + w)
  | _, _, _, _ => None
  end.

(** The one-character escapes of [BACKSLASH] in [json.decoder]. *)
Definition simple_escape (e : N) : option N :=
  if e =? 34 then Some 34
  else if e =? 92 then Some 92
  else if e =? 47 then Some 47
  else if e =? 98 then Some 8
  else if e =? 102 then Some 12
  else if e =? 110 then Some 10
  else if e =? 114 then Some 13
  else if e =? 116 then Some 9
  else None.

Definition is_high_surrogate (u : N) : bool := (55296 <=? u) && (u <=? 56319).
Definition is_low_surrogate (u : N) : bool := (56320 <=? u) && (u <=? 57343).
Definition join_surrogates (hi lo : N) : N :=
  65536 + N.lor (N.shiftl (hi - 55296) 10) (lo - 56320).

Definition prepend (c : N) (o : outcome (pystr * pystr)) : outcome (pystr * pystr) :=
  match o with
  | Ret (str, rest) => Ret (c :: str, rest)
  | Exc e => Exc e
  end.

(** [scanstring] with [strict=True]: the body of a string literal after its
    opening quote; returns the decoded string and the rest of the input. *)
Fixpoint scanstring (s : pystr) : outcome (pystr * pystr) :=
  match s with
  | [] => Exc JSONDecodeError
  | c :: r =>
      if c =? 34 then Ret ([], r)
      else if c =? 92 then
        match r with
        | [] => Exc JSONDecodeError
        | e :: r1 =>
            if e =? 117 then
              match r1 with
              | a :: b :: c' :: d :: r2 =>
                  match hex4 a b c' d with
                  | None => Exc JSONDecodeError
                  | Some u =>
                      if is_high_surrogate u then
                        match r2 with
                        | x :: y :: a2 :: b2 :: c2 :: d2 :: r3 =>
                            if (x =? 92) && (y =? 117) then
                              match hex4 a2 b2 c2 d2 with
                              | None => Exc JSONDecodeError
                              | Some u2 =>
                                  if is_low_surrogate u2
                                  then prepend (join_surrogates u u2) (scanstring r3)
                                  else prepend u (scanstring r2)
                              end
                            else prepend u (scanstring r2)
                        | _ => prepend u (scanstring r2)
                        end
                      else prepend u (scanstring r2)
                  end
              | _ => Exc JSONDecodeError
              end
            else
              match simple_escape e with
              | Some ch => prepend ch (scanstring r1)
              | None => Exc JSONDecodeError
              end
        end
      else if c <? 32 then Exc JSONDecodeError
      else prepend c (scanstring r)
  end.

(** [d[k] = v] on a dict given as its ordered pairs. *)
Fixpoint dict_set (kv : list (pystr * json)) (k : pystr) (v : json)
  : list (pystr * json) :=
  match kv with
  | [] => [(k, v)]
  | (k', v') :: r =>
      if list_eq_dec N.eq_dec k k' then (k, v) :: r else (k', v') :: dict_set r k v
  end.

(** [s] starts with [p]; returns the rest. *)
Fixpoint strip_prefix (p s : pystr) : option pystr :=
  match p, s with
  | [], _ => Some s
  | x :: p', y :: s' => if x =? y then strip_prefix p' s' else None
  | _ :: _, [] => None
  end.

(** [scan_once], [_parse_array] and [_parse_object] of the C scanner. The
    [fuel] argument bounds the nesting and the number of items; [loads]
    passes the input length, which is never exhausted on its own output. *)
Fixpoint scan_once (fuel : nat) (s : pystr) : outcome (json * pystr) :=
  match fuel with
  | O => Exc JSONDecodeError
  | S f =>
      match s with
      | [] => Exc JSONDecodeError
      | c :: r =>
          if c =? 34 then
            match scanstring r with
            | Ret (str, r') => Ret (JStr str, r')
            | Exc e => Exc e
            end
          else if c =? 123 then
            match skip_ws r with
            | d :: r' => if d =? 125 then Ret (JObj [], r')
                         else parse_members f [] (d :: r')
            | [] => Exc JSONDecodeError
            end
          else if c =? 91 then
            match skip_ws r with
            | d :: r' => if d =? 93 then Ret (JArr [], r')
                         else parse_items f [] (d :: r')
            | [] => Exc JSONDecodeError
            end
          else
            match strip_prefix [110; 117; 108; 108] s with
            | Some r' => Ret (JNull, r')
            | None =>
            match strip_prefix [116; 114; 117; 101] s with
            | Some r' => Ret (JBool true, r')
            | None =>
            match strip_prefix [102; 97; 108; 115; 101] s with
            | Some r' => Ret (JBool false, r')
            | None => Exc JSONDecodeError
            end end end
      end
  end
(** Array items from the first value on; [acc] holds the items so far. *)
with parse_items (fuel : nat) (acc : list json) (s : pystr)
  : outcome (json * pystr) :=
  match fuel with
  | O => Exc JSONDecodeError
  | S f =>
      match scan_once f s with
      | Exc e => Exc e
      | Ret (v, r) =>
          match skip_ws r with
          | d :: r' =>
              if d =? 93 then Ret (JArr (acc ++ [v]), r')
              else if d =? 44 then parse_items f (acc ++ [v]) (skip_ws r')
              else Exc JSONDecodeError
          | [] => Exc JSONDecodeError
          end
      end
  end
(** Object members from the first key on; [acc] is the dict so far. *)
with parse_members (fuel : nat) (acc : list (pystr * json)) (s : pystr)
  : outcome (json * pystr) :=
  match fuel with
  | O => Exc JSONDecodeError
  | S f =>
      match s with
      | c :: r =>
          if c =? 34 then
            match scanstring r with
            | Exc e => Exc e
            | Ret (k, r1) =>
                match skip_ws r1 with
                | d :: r2 =>
                    if d =? 58 then
                      match scan_once f (skip_ws r2) with
                      | Exc e => Exc e
                      | Ret (v, r3) =>
                          match skip_ws r3 with
                          | e :: r4 =>
                              if e =? 125 then Ret (JObj (dict_set acc k v), r4)
                              else if e =? 44 then
                                parse_members f (dict_set acc k v) (skip_ws r4)
                              else Exc JSONDecodeError
                          | [] => Exc JSONDecodeError
                          end
                      end
                    else Exc JSONDecodeError
                | [] => Exc JSONDecodeError
                end
            end
          else Exc JSONDecodeError
      | [] => Exc JSONDecodeError
      end
  end.

(** [json.loads(s)] on a [str]: a leading BOM is refused, whitespace around
    the value is skipped, and extra data after it is an error. *)
Definition loads (s : pystr) : outcome json :=
  match s with
  | 65279 :: _ => Exc JSONDecodeError
  | _ =>
      match scan_once (length s) (skip_ws s) with
      | Exc e => Exc e
      | Ret (v, r) =>
          match skip_ws r with
          | [] => Ret v
          | _ :: _ => Exc JSONDecodeError
          end
      end
  end.

(** ** Python helpers on strings *)

(** An ASCII Python literal. *)
Definition py (s : string) : pystr := map N_of_ascii (list_ascii_of_string s).

Fixpoint take_while {A} (f : A -> bool) (l : list A) : list A :=
  match l with
  | [] => []
  | x :: r => if f x then x :: take_while f r else []
  end.

Fixpoint drop_while {A} (f : A -> bool) (l : list A) : list A :=
  match l with
  | x :: r => if f x then drop_while f r else l
  | [] => []
  end.

(** [str.isspace] on one code point ([_PyUnicode_IsWhitespace]). *)
Definition py_isspace (c : N) : bool :=
  ((9 <=? c) && (c <=? 13)) || ((28 <=? c) && (c <=? 32)) ||
  (c =? 133) || (c =? 160) || (c =? 5760) ||
  ((8192 <=? c) && (c <=? 8202)) || (c =? 8232) || (c =? 8233) ||
  (c =? 8239) || (c =? 8287) || (c =? 12288).

(** [str.strip()]. *)
Definition py_strip (s : pystr) : pystr :=
  rev (drop_while py_isspace (rev (drop_while py_isspace s))).

(** [posixpath.dirname]. *)
Definition py_dirname (p : pystr) : pystr :=
  let head := rev (drop_while (fun c => negb (c =? 47)) (rev p)) in
  if existsb (fun c => negb (c =? 47)) head
  then rev (drop_while (fun c => c =? 47) (rev head))
  else head.

(** [posixpath.split(p)[1]]: the part after the last slash. *)
Definition py_basename (p : pystr) : pystr :=
  rev (take_while (fun c => negb (c =? 47)) (rev p)).

(** Reading a text file in universal-newline mode: [\r\n] and [\r] become
    [\n]. Writing on POSIX translates nothing. *)
Fixpoint universal_newlines (s : pystr) : pystr :=
  match s with
  | [] => []
  | c :: r =>
      if c =? 13 then
        match r with
        | d :: r' => if d =? 10 then 10 :: universal_newlines r'
                     else 10 :: universal_newlines r
        | [] => [10]
        end
      else c :: universal_newlines r
  end.

(** ** The process state *)

(** What [print] wrote: text, or a non-string value formatted by an
    f-string (its [repr] is not modelled). *)
Inductive out_item :=
  | OText (s : pystr)
  | OValue (v : json).

Record world := mk_world {
  environ : list (pystr * pystr);          (* os.environ *)
  files : pystr -> option pystr;           (* regular files and their text *)
  dirs : pystr -> bool;                    (* existing directories *)
  chain_log : list (list pystr);           (* documents of each chain call *)
  slept : nat;                             (* seconds of time.sleep *)
  stdout : list out_item;
  queries : list pystr                     (* queries given to run_query *)
}.

Inductive result (A : Type) :=
  | Done (a : A) (w : world)
  | Raised (e : py_error) (w : world).
Arguments Done {A} a w.
Arguments Raised {A} e w.

(** State and exception monad of a Python run. *)
Definition M (A : Type) := world -> result A.

Definition mret {A} (a : A) : M A := fun w => Done a w.
Definition mbind {A B} (m : M A) (k : A -> M B) : M B :=
  fun w => match m w with
           | Done a w' => k a w'
           | Raised e w' => Raised e w'
           end.
Definition raise {A} (e : py_error) : M A := fun w => Raised e w.
Definition lift {A} (o : outcome A) : M A :=
  match o with Ret a => mret a | Exc e => raise e end.
Definition modify (f : world -> world) : M unit := fun w => Done tt (f w).
Definition gets {A} (f : world -> A) : M A := fun w => Done (f w) w.

Notation "x <- m ;; k" := (mbind m (fun x => k))
  (at level 61, m at next level, right associativity).
Notation "m ;;; k" := (mbind m (fun _ => k))
  (at level 61, right associativity).

Definition set_files (f : pystr -> option pystr) (w : world) : world :=
  mk_world (environ w) f (dirs w) (chain_log w) (slept w) (stdout w) (queries w).
Definition set_dirs (d : pystr -> bool) (w : world) : world :=
  mk_world (environ w) (files w) d (chain_log w) (slept w) (stdout w) (queries w).
Definition log_chain (docs : list pystr) (w : world) : world :=
  mk_world (environ w) (files w) (dirs w) (chain_log w ++ [docs]) (slept w)
    (stdout w) (queries w).
Definition add_sleep (n : nat) (w : world) : world :=
  mk_world (environ w) (files w) (dirs w) (chain_log w) (slept w + n)
    (stdout w) (queries w).
Definition emit (o : list out_item) (w : world) : world :=
  mk_world (environ w) (files w) (dirs w) (chain_log w) (slept w)
    (stdout w ++ o) (queries w).
Definition log_query (q : pystr) (w : world) : world :=
  mk_world (environ w) (files w) (dirs w) (chain_log w) (slept w)
    (stdout w) (queries w ++ [q]).

Definition pystr_eqb (a b : pystr) : bool :=
  if list_eq_dec N.eq_dec a b then true else false.

Definition update_file (p : pystr) (txt : pystr) (f : pystr -> option pystr)
  : pystr -> option pystr :=
  fun q => if pystr_eqb q p then Some txt else f q.

(** [os.environ[k]]. *)
Definition env_get (k : pystr) : M pystr :=
  fun w => match find (fun kv => pystr_eqb (fst kv) k) (environ w) with
           | Some (_, v) => Done v w
           | None => Raised KeyError w
           end.

Definition os_path_isdir (p : pystr) : M bool := gets (fun w => dirs w p).

Definition os_path_exists (p : pystr) : M bool :=
  gets (fun w => match files w p with Some _ => true | None => dirs w p end).

(** Paths are compared as texts: the modelled file system holds normalized
    paths, without [.], [..], repeated or trailing slashes. A relative path
    without a slash lives in the working directory, which exists. *)
Definition parent_dir_ok (w : world) (parent : pystr) : bool :=
  match parent with [] => true | _ => dirs w parent end.

(** The error of a system call whose parent directory [parent] is missing:
    [ENOTDIR] when it is a regular file, else [ENOENT]. *)
Definition missing_parent_error (w : world) (parent : pystr) : py_error :=
  match files w parent with Some _ => NotADirectoryError | None => FileNotFoundError end.

(** [os.mkdir(d)]. *)
Definition os_mkdir (d : pystr) : M unit :=
  fun w =>
    match d with
    | [] => Raised FileNotFoundError w
    | _ =>
        if dirs w d || match files w d with Some _ => true | None => false end
        then Raised FileExistsError w
        else if parent_dir_ok w (py_dirname d)
             then Done tt (set_dirs (fun q => pystr_eqb q d || dirs w q) w)
             else Raised (missing_parent_error w (py_dirname d)) w
    end.

(** [try: m except FileExistsError: pass]. *)
Definition except_file_exists (m : M unit) : M unit :=
  fun w => match m w with
           | Raised FileExistsError w' => Done tt w'
           | o => o
           end.

(** [os.makedirs(name)] ([exist_ok=False]), as CPython's [os.py] writes it:
    [head, tail = path.split(name)]; [if not tail: head, tail =
    path.split(head)]; missing ancestors are made first, a [FileExistsError]
    from them being ignored; a [tail] of [.] stops there; then
    [mkdir(name)]. Each recursive call is on a shorter path, so
    [length name + 1] steps of [fuel] suffice. *)
Fixpoint makedirs_fuel (fuel : nat) (name : pystr) : M unit :=
  match fuel with
  | O => os_mkdir name
  | S fuel' =>
      let '(head, tail) :=
        if nonempty (py_basename name) then (py_dirname name, py_basename name)
        else (py_dirname (py_dirname name), py_basename (py_dirname name)) in
      ex <- os_path_exists head ;;
      if nonempty head && nonempty tail && negb ex then
        except_file_exists (makedirs_fuel fuel' head) ;;;
        if pystr_eqb tail [46] then mret tt else os_mkdir name
      else os_mkdir name
  end.

Definition os_makedirs (d : pystr) : M unit := makedirs_fuel (S (length d)) d.

(** [w'] differs from [w] in its directories only, and only by new
    directories among [name], [dirname(name)], [dirname(dirname(name))],
    ... *)
Definition dirs_grown_along (name : pystr) (w w' : world) : Prop :=
  w' = set_dirs (dirs w') w /\
  forall q, dirs w' q <> dirs w q ->
    dirs w' q = true /\ exists n, q = Nat.iter n py_dirname name.

(** A code point the UTF-8 codec can encode: not a surrogate. *)
Definition utf8_encodable (c : N) : bool := (c <? 55296) || (57344 <=? c).

(** [with open(p, "w") as f: f.write(txt)]: [open] needs the parent
    directory, refuses a directory, and truncates the file (or creates it);
    [write] encodes the text as UTF-8 and raises on a lone surrogate, leaving
    the file empty. *)
Definition write_text (p txt : pystr) : M unit :=
  fun w =>
    match p with
    | [] => Raised FileNotFoundError w
    | _ =>
        if parent_dir_ok w (py_dirname p) then
          if dirs w p then Raised IsADirectoryError w
          else if forallb utf8_encodable txt
               then Done tt (set_files (update_file p txt (files w)) w)
               else Raised UnicodeEncodeError (set_files (update_file p [] (files w)) w)
        else Raised (missing_parent_error w (py_dirname p)) w
    end.

(** [with open(p, "r") as f: f.read()]. *)
Definition read_text (p : pystr) : M pystr :=
  fun w => match files w p with
           | Some txt => Done (universal_newlines txt) w
           | None => if dirs w p then Raised IsADirectoryError w
                     else Raised FileNotFoundError w
           end.

Definition time_sleep (n : nat) : M unit := modify (add_sleep n).

Definition print (o : list out_item) : M unit := modify (emit o).

(** ** [YoutubeSummarize] *)

(** The dict built by [run]: [url], [title], [detail], [concise]. *)
Record summary_record := mk_summary {
  s_url : pystr;
  s_title : pystr;
  s_detail : list pystr;
  s_concise : pystr
}.

Definition summary_json (r : summary_record) : json :=
  JObj [(py "url", JStr (s_url r)); (py "title", JStr (s_title r));
        (py "detail", JArr (map JStr (s_detail r)));
        (py "concise", JStr (s_concise r))].


(** The attributes of a [YoutubeSummarize] object used by [run]. *)
Record youtube_summarize := mk_yts {
  vid : pystr;
  debug : bool;
  url : pystr;
  title : pystr;
  summary_file : pystr;
  chunks : list chunk
}.

Definition SUMMARY_STORE_DIR : pystr := py "SUMMARY_STORE_DIR".

(** [f'{os.environ["SUMMARY_STORE_DIR"]}/{vid}']. *)
Definition summary_path (store_dir vid : pystr) : pystr := store_dir ++ [47] ++ vid.

(** The map-reduce summarize chain, an external collaborator: [chain k docs]
    is the answer of the [k]-th invocation on the page contents [docs], or
    [None] when that invocation raises. *)
Definition chain_oracle := nat -> list pystr -> option pystr.

(** What the verbose chain prints on stdout during its [k]-th invocation on
    [docs] (the trace of [load_summarize_chain(..., verbose=True)]). *)
Definition chain_trace := nat -> list pystr -> list out_item.

(** The traces of the invocations [calls], the first one being the [k]-th. *)
Fixpoint traces (trace : chain_trace) (k : nat) (calls : list (list pystr)) : list out_item :=
  match calls with
  | [] => []
  | docs :: rest => trace k docs ++ traces trace (S k) rest
  end.

(** [loop.run_until_complete(asyncio.gather(chain.arun(docs)))[0]] on a
    chain built with [verbose]. *)
Definition chain_arun (chain : chain_oracle) (trace : chain_trace) (verbose : bool)
    (docs : list pystr) : M pystr :=
  fun w =>
    let k := length (chain_log w) in
    let w' := log_chain docs (if verbose then emit (trace k docs) w else w) in
    match chain k docs with
    | Some s => Done s w'
    | None => Raised ChainError w'
    end.

Definition documents (cs : list chunk) : list pystr := map text cs.

(** [for idx, chunks in enumerate(splited_chunks): ...]. *)
Fixpoint detail_loop (chain : chain_oracle) (trace : chain_trace) (verbose : bool)
    (bs : list (list chunk)) (idx : nat) (detail_summary : list pystr) : M (list pystr) :=
  match bs with
  | [] => mret detail_summary
  | b :: rest =>
      (if Nat.ltb 0 idx then time_sleep 3 else mret tt) ;;;
      s <- chain_arun chain trace verbose (documents b) ;;
      detail_loop chain trace verbose rest (S idx) (detail_summary ++ [s])
  end.

(** The persisting tail of [run]. *)
Definition save_summary (path : pystr) (r : summary_record) : M unit :=
  let d := py_dirname path in
  isd <- os_path_isdir d ;;
  (if isd then mret tt else os_makedirs d) ;;;
  write_text path (dumps (summary_json r)).

(** [YoutubeSummarize.run]. *)
Definition run (chain : chain_oracle) (trace : chain_trace) (self : youtube_summarize)
  : M summary_record :=
  concise_summary <- chain_arun chain trace (debug self) (documents (chunks self)) ;;
  splited_chunks <- lift (divide_chunks_by_time (chunks self) 5) ;;
  detail_summary <- detail_loop chain trace (debug self) splited_chunks 0 [] ;;
  let summary := mk_summary (url self) (title self) detail_summary concise_summary in
  save_summary (summary_file self) summary ;;;
  mret summary.

(** ** The QA entry point [qa] of [__main__] *)

(** [obj[k]] on a decoded JSON value. *)
Definition json_getitem (v : json) (k : pystr) : outcome json :=
  match v with
  | JObj kv =>
      match find (fun p => pystr_eqb (fst p) k) kv with
      | Some (_, x) => Ret x
      | None => Exc KeyError
      end
  | _ => Exc TypeError
  end.

Definition format_value (v : json) : out_item :=
  match v with JStr s => OText s | _ => OValue v end.

(** The summary hint printed before the loop. *)
Definition qa_summary_hint (vid : pystr) : M unit :=
  store_dir <- env_get SUMMARY_STORE_DIR ;;
  let path := summary_path store_dir vid in
  ex <- os_path_exists path ;;
  if ex then
    txt <- read_text path ;;
    summary <- lift (loads txt) ;;
    concise <- lift (json_getitem summary (py "concise")) ;;
    print [OText (py "(Summary) "); format_value concise; OText [10; 10]]
  else mret tt.


(** The [YoutubeQA] object, an external collaborator: the answer to the
    [k]-th query, and the sources [(score, id, time, source)] it used, as
    the texts their f-strings format to. *)
Record youtube_qa := mk_yqa {
  run_query : nat -> pystr -> pystr;
  get_source : nat -> list (pystr * pystr * pystr * pystr)
}.

Definition answer_query (yqa : youtube_qa) (q : pystr) : M pystr :=
  fun w => Done (run_query yqa (length (queries w)) q) (log_query q w).

Definition print_sources (srcs : list (pystr * pystr * pystr * pystr)) : M unit :=
  fold_right (fun '(score, id, time, source) m =>
      print [OText (py "--- " ++ time ++ py " (" ++ id ++ py " [" ++ score ++
                    py "]) ---" ++ [10] ++ py " " ++ source ++ [10])] ;;; m)
    (print [OText [10]]) srcs.

(** [while True:] of [qa]; the loop reads the given input lines and
    [input()] raises [EOFError] when they are exhausted. *)
Fixpoint qa_loop (yqa : youtube_qa) (detail : bool) (lines : list pystr) : M unit :=
  print [OText (py "Query: ")] ;;;
  match lines with
  | [] => raise EOFError
  | line :: rest =>
      let query := py_strip line in
      if pystr_eqb query [] then mret tt
      else
        print [OText (py "Answer: ")] ;;;
        k <- gets (fun w => length (queries w)) ;;
        answer <- answer_query yqa query ;;
        print [OText (answer ++ [10] ++ [10])] ;;;
        (if detail then print_sources (get_source yqa k) else mret tt) ;;;
        qa_loop yqa detail rest
  end.

(** [qa(args)] after [yqa.prepare_query()]. *)
Definition qa (yqa : youtube_qa) (vid : pystr) (detail : bool) (lines : list pystr)
  : M unit :=
  qa_summary_hint vid ;;; qa_loop yqa detail lines.

(** ** [YoutubeSummarize.__init__], [prepare] and the [summary] command *)

(** [YoutubeSummarize(vid, debug)]: the empty id is refused, [summary_file]
    reads [SUMMARY_STORE_DIR], then [setup_llm_from_environment()] runs; the
    outcome [setup_llm] of that external collaborator returns or raises
    whatever exception it raises. *)
Definition youtube_summarize_init (setup_llm : outcome unit) (vid : pystr) (debug : bool)
  : M youtube_summarize :=
  if pystr_eqb vid [] then raise ValueError
  else
    store_dir <- env_get SUMMARY_STORE_DIR ;;
    lift setup_llm ;;;
    mret (mk_yts vid debug (py "https://www.youtube.com/watch?v=" ++ vid) []
            (summary_path store_dir vid) []).

(** The external computations [prepare] performs: [video_title url] is the
    whole expression [YouTube(url).vid_info["videoDetails"]["title"]], and
    [transcript_chunks vid] is
    [divide_transcriptions_into_chunks(get_transcript(vid), ...)]; each
    either returns or raises its own exception (a [KeyError] of the lookup
    included). *)
Record video_api := mk_video_api {
  video_title : pystr -> outcome pystr;
  transcript_chunks : pystr -> outcome (list chunk)
}.

(** [YoutubeSummarize.prepare]. *)
Definition prepare (api : video_api) (self : youtube_summarize) : M youtube_summarize :=
  t <- lift (video_title api (url self)) ;;
  cs <- lift (transcript_chunks api (vid self)) ;;
  mret (mk_yts (vid self) (debug self) (url self) t (summary_file self) cs).

(** The headings printed by [summary]: [[詳細な要約]] and [[簡潔な要約]]. *)
Definition detail_heading : pystr := [91; 35443; 32048; 12394; 35201; 32004; 93].
Definition concise_heading : pystr := [91; 31777; 28500; 12394; 35201; 32004; 93].

(** [summary(args)] of [__main__]. *)
Definition summary_cmd (setup_llm : outcome unit) (api : video_api) (chain : chain_oracle)
    (trace : chain_trace) (debug : bool) (vid : pystr) : M unit :=
  ys <- youtube_summarize_init setup_llm vid debug ;;
  ys <- prepare api ys ;;
  summary <- run chain trace ys ;;
  print [OText (detail_heading ++ [10])] ;;;
  fold_right (fun s m => print [OText ([12539] ++ s ++ [10] ++ [10])] ;;; m) (mret tt)
    (s_detail summary) ;;;
  print [OText ([10] ++ [32] ++ concise_heading ++ [10] ++ [32] ++ s_concise summary ++ [10])].

(** What [summary] prints for the record [r]. *)
Definition summary_output (r : summary_record) : list out_item :=
  [OText (detail_heading ++ [10])] ++
  map (fun s => OText ([12539] ++ s ++ [10] ++ [10])) (s_detail r) ++
  [OText ([10] ++ [32] ++ concise_heading ++ [10] ++ [32] ++ s_concise r ++ [10])].

(** ** Sample inputs *)

(** A process that starts with no files, the root directory [/] and the
    working directory only, and no chain call, sleep, output or query yet. *)
Definition empty_world : world :=
  mk_world [] (fun _ => None) (fun d => pystr_eqb d [47]) [] 0 [] [].

(** Two chunks, at 0 s and 3 s, each lasting 3 s: bucket width 6 // 5 = 1. *)
Definition two_chunk_video : youtube_summarize :=
  mk_yts (py "vid") false (py "https://www.youtube.com/watch?v=vid") (py "title")
    (summary_path (py "store") (py "vid"))
    [mk_chunk (py "vid-0") (py "first") 0%Q 3%Q; mk_chunk (py "vid-1") (py "second") 3%Q 3%Q].

(** A chain whose [k]-th invocation answers the text [k]. *)
Definition answering_chain : chain_oracle := fun k _ => Some [N.of_nat k].

(** The same chain, except that its [n]-th invocation raises. *)
Definition chain_failing_at (n : nat) : chain_oracle :=
  fun k docs => if Nat.eqb k n then None else answering_chain k docs.

(** A chain that prints nothing, and one whose verbose trace is a line
    announcing each invocation. *)
Definition quiet_trace : chain_trace := fun _ _ => [].
Definition call_trace : chain_trace := fun _ _ => [OText (py "> Entering new chain...")].

(** A [YoutubeQA] that answers each query with the query itself and cites
    no source. *)
Definition echo_qa : youtube_qa := mk_yqa (fun _ q => q) (fun _ => []).

(** A process whose [SUMMARY_STORE_DIR] is [/data/summary] and which has
    no file and no directory but the root [/]. *)
Definition bare_world : world :=
  mk_world [(SUMMARY_STORE_DIR, py "/data/summary")] (fun _ => None)
    (fun d => pystr_eqb d [47]) [] 0 [] [].

(** ** Expected output of a QA session *)

(** The lines [print] writes for the sources of one answer. *)
Definition sources_output (srcs : list (pystr * pystr * pystr * pystr)) : list out_item :=
  map (fun '(score, id, time, source) =>
         OText (py "--- " ++ time ++ py " (" ++ id ++ py " [" ++ score ++
                py "]) ---" ++ [10] ++ py " " ++ source ++ [10])) srcs
  ++ [OText [10]].

(** One round of the loop on the [k]-th query [q]: the prompt, exactly one
    answer, and its sources in detail mode. *)
Definition answer_output (yqa : youtube_qa) (detail : bool) (k : nat) (q : pystr)
  : list out_item :=
  [OText (py "Query: "); OText (py "Answer: "); OText (run_query yqa k q ++ [10] ++ [10])]
  ++ (if detail then sources_output (get_source yqa k) else []).

Fixpoint session_output (yqa : youtube_qa) (detail : bool) (k : nat) (qs : list pystr)
  : list out_item :=
  match qs with
  | [] => []
  | q :: qs' => answer_output yqa detail k q ++ session_output yqa detail (S k) qs'
  end.

(** An action never changes the observation [obs] of the state, whether it
    returns or raises. *)
Definition preserves {A X} (obs : world -> X) (m : M A) : Prop :=
  forall w, match m w with Done _ w' | Raised _ w' => obs w' = obs w end.


(** Services that find the video and cut its transcript into the two chunks
    of [two_chunk_video]. *)
Definition sample_api : video_api :=
  mk_video_api (fun _ => Ret (py "A talk")) (fun _ => Ret (chunks two_chunk_video)).

(** Services whose title lookup raises [KeyError] (a video without
    [videoDetails]). *)
Definition title_keyerror_api : video_api :=
  mk_video_api (fun _ => Exc KeyError) (fun _ => Ret (chunks two_chunk_video)).



(** A video whose transcript has no chunk, and the same video summarized
    with [--debug]. *)
Definition silent_video : youtube_summarize :=
  mk_yts (py "vid") false (py "https://www.youtube.com/watch?v=vid") (py "A talk")
    (summary_path (py "/data/summary") (py "vid")) [].

Definition debug_silent_video : youtube_summarize :=
  mk_yts (py "vid") true (py "https://www.youtube.com/watch?v=vid") (py "A talk")
    (summary_path (py "/data/summary") (py "vid")) [].

(** One [key: value] member of a dumped object. *)
Definition member (k : pystr) (v : json) : pystr := encode_basestring k ++ key_sep ++ dumps v.

Close Scope N_scope.

(** * Proofs *)

(** ** Bucketing *)

Example divide_ex1 :
  bucket_sizes (divide_chunks_by_time
    (map (fun k => ck (inject_Z (10 * k)) 1) [0;1;2;3;4;5;6;7;8;9]) 5)
  = Some [2;2;2;2;1;1]%nat.
Proof. vm_compute. reflexivity. Qed.


Lemma list_modify_map_seq {A} (f : A -> A) (g : nat -> A) (n s i : nat) :
  (s <= i < s + n)%nat ->
  list_modify f (i - s) (map g (seq s n)) =
  map (fun k => if Nat.eqb k i then f (g k) else g k) (seq s n).
Proof.
  revert s. induction n as [|n IH]; intros s Hi; [lia|].
  simpl. destruct (Nat.eq_dec i s) as [->|Hne].
  - rewrite Nat.sub_diag, Nat.eqb_refl. simpl. f_equal.
    apply map_ext_in. intros k Hk. apply in_seq in Hk.
    destruct (Nat.eqb_spec k s); [lia | reflexivity].
  - replace (i - s)%nat with (S (i - S s)) by lia. simpl.
    destruct (Nat.eqb_spec s i); [lia|]. f_equal. apply IH. lia.
Qed.

Lemma list_modify_length {A} (f : A -> A) n (l : list A) :
  length (list_modify f n l) = length l.
Proof.
  revert n. induction l as [|x l IH]; intros [|n]; simpl; auto.
Qed.

Lemma py_index_in_range (len : nat) (i : Z) :
  0 <= i < Z.of_nat len -> py_index len i = Some (Z.to_nat i).
Proof.
  intros Hi. unfold py_index.
  destruct (Z.ltb_spec i 0); [lia|].
  destruct (Z.leb_spec 0 i); [|lia].
  destruct (Z.ltb_spec i (Z.of_nat len)); [reflexivity|lia].
Qed.

Lemma clamp_is_min (a b : Z) : (if a <? b then a else b) = Z.min a b.
Proof. destruct (Z.ltb_spec a b); lia. Qed.

Lemma inject_Z_nonzero (d : Z) : d <> 0 -> Qeq_bool (inject_Z d) 0 = false.
Proof.
  intros Hd. destruct (Qeq_bool (inject_Z d) 0) eqn:E; [|reflexivity].
  apply Qeq_bool_iff in E. unfold Qeq in E. simpl in E. lia.
Qed.

Lemma Qfloor_div_nonneg (s : Q) (d : Z) :
  1 <= d -> (0 <= s)%Q -> 0 <= Qfloor (s / inject_Z d)%Q.
Proof.
  intros Hd Hs. change 0 with (Qfloor 0). apply Qfloor_resp_le.
  apply Qle_shift_div_l.
  - unfold Qlt. simpl. lia.
  - rewrite Qmult_0_l. exact Hs.
Qed.

Lemma rev_cons_not_nil {A} (x : A) (l : list A) : rev (x :: l) <> [].
Proof.
  simpl. intros H. apply app_eq_nil in H as [_ H]. discriminate.
Qed.

Lemma repeat_nil_map_seq {A} (n s : nat) :
  repeat (@nil A) n = map (fun _ => []) (seq s n).
Proof. revert s. induction n; intros s; simpl; f_equal; auto. Qed.

Section Bucketing.

Variables split_num delta : Z.
Hypothesis Hsplit : 1 <= split_num.
Hypothesis Hdelta : 1 <= delta.

Let bidx := spec_bucket_index split_num delta.
Let grp := spec_group split_num delta.

Definition overflow_seen (p : list chunk) : bool :=
  existsb (fun c => spec_bucket_index split_num delta c =? split_num) p.

(** The list of lists after the prefix [p] has been processed. *)
Definition bucket_state (p : list chunk) : list (list chunk) :=
  map (spec_group split_num delta p)
    (seq 0 (Z.to_nat split_num + (if overflow_seen p then 1 else 0))).

Lemma spec_group_snoc (p : list chunk) (c : chunk) (k : nat) :
  spec_group split_num delta (p ++ [c]) k =
  spec_group split_num delta p k ++
    (if spec_bucket_index split_num delta c =? Z.of_nat k then [c] else []).
Proof.
  unfold spec_group. rewrite filter_app. simpl.
  destruct (_ =? _); reflexivity.
Qed.

Lemma spec_group_overflow_none (p : list chunk) :
  overflow_seen p = false ->
  spec_group split_num delta p (Z.to_nat split_num) = [].
Proof.
  unfold overflow_seen, spec_group. intros H.
  rewrite Z2Nat.id by lia.
  induction p as [|c p IH]; simpl in *; [reflexivity|].
  apply orb_false_iff in H as [H1 H2]. rewrite H1. auto.
Qed.

Lemma spec_bucket_index_range (c : chunk) :
  (0 <= start c)%Q -> 0 <= spec_bucket_index split_num delta c <= split_num.
Proof.
  intros Hs. unfold spec_bucket_index.
  pose proof (Qfloor_div_nonneg (start c) delta Hdelta Hs). lia.
Qed.

Lemma bucket_state_nil :
  bucket_state [] = repeat [] (Z.to_nat split_num).
Proof.
  unfold bucket_state. simpl. rewrite Nat.add_0_r.
  rewrite (repeat_nil_map_seq _ 0). apply map_ext. intros k. reflexivity.
Qed.

Lemma divide_loop_step (p : list chunk) (c : chunk) (rest : list chunk) :
  (0 <= start c)%Q ->
  divide_loop split_num (inject_Z delta) (c :: rest) (bucket_state p) =
  divide_loop split_num (inject_Z delta) rest (bucket_state (p ++ [c])).
Proof.
  intros Hs. simpl. unfold py_floordiv. rewrite inject_Z_nonzero by lia.
  rewrite clamp_is_min.
  change (Z.min _ split_num) with (spec_bucket_index split_num delta c).
  pose proof (spec_bucket_index_range c Hs) as Hb.
  set (b := spec_bucket_index split_num delta c) in *.
  set (n0 := Z.to_nat split_num).
  assert (Hov : overflow_seen (p ++ [c]) = overflow_seen p || (b =? split_num)).
  { unfold overflow_seen. rewrite existsb_app. simpl. rewrite orb_false_r.
    reflexivity. }
  set (n' := (n0 + (if overflow_seen (p ++ [c]) then 1 else 0))%nat).
  assert (Hpre :
    (if Z.of_nat (length (bucket_state p)) <? b + 1
     then bucket_state p ++ [[]] else bucket_state p)
    = map (spec_group split_num delta p) (seq 0 n') /\ (Z.to_nat b < n')%nat).
  { unfold bucket_state, n'. fold n0. rewrite length_map, length_seq, Hov.
    destruct (Z.eqb_spec b split_num) as [Heq|Hne];
      destruct (overflow_seen p) eqn:Ho; simpl.
    - destruct (Z.ltb_spec (Z.of_nat (n0 + 1)) (b + 1)); [lia|]. split; [reflexivity|lia].
    - rewrite Nat.add_0_r.
      destruct (Z.ltb_spec (Z.of_nat n0) (b + 1)); [|lia].
      rewrite Nat.add_1_r, seq_S, map_app. simpl.
      pose proof (spec_group_overflow_none p Ho) as Hz. fold n0 in Hz.
      rewrite Hz. split; [reflexivity|lia].
    - destruct (Z.ltb_spec (Z.of_nat (n0 + 1)) (b + 1)); [lia|]. split; [reflexivity|lia].
    - rewrite Nat.add_0_r.
      destruct (Z.ltb_spec (Z.of_nat n0) (b + 1)); [lia|]. split; [reflexivity|lia]. }
  destruct Hpre as [Hpre Hlt]. rewrite Hpre. unfold py_append_at.
  rewrite length_map, length_seq, py_index_in_range by lia.
  rewrite <- (Nat.sub_0_r (Z.to_nat b)).
  rewrite list_modify_map_seq by lia.
  f_equal. unfold bucket_state. fold n0. fold n'. apply map_ext. intros k.
  rewrite spec_group_snoc. fold b.
  destruct (Nat.eqb_spec k (Z.to_nat b)); destruct (Z.eqb_spec b (Z.of_nat k));
    try reflexivity; try lia. rewrite app_nil_r. reflexivity.
Qed.

Lemma divide_loop_state (rest p : list chunk) :
  (forall c, In c rest -> (0 <= start c)%Q) ->
  divide_loop split_num (inject_Z delta) rest (bucket_state p) =
  Ret (bucket_state (p ++ rest)).
Proof.
  revert p. induction rest as [|c rest IH]; intros p Hs.
  - simpl. rewrite app_nil_r. reflexivity.
  - rewrite divide_loop_step by (apply Hs; left; reflexivity).
    rewrite IH by (intros c' Hc'; apply Hs; right; exact Hc').
    rewrite <- app_assoc. reflexivity.
Qed.

Lemma filter_bucket_state (p : list chunk) :
  filter nonempty (bucket_state p) = spec_buckets split_num delta p.
Proof.
  unfold bucket_state, spec_buckets.
  destruct (overflow_seen p) eqn:Ho; [reflexivity|].
  rewrite Nat.add_0_r, Nat.add_1_r, seq_S, map_app, filter_app. simpl.
  rewrite (spec_group_overflow_none p Ho). simpl. rewrite app_nil_r.
  reflexivity.
Qed.

End Bucketing.

(** The source's bucketing equals the spec's formula whenever the data are
    well formed and [bucket_width >= 1]. *)
Lemma divide_chunks_by_time_spec (chunks : list chunk) (split_num : Z) :
  chunks <> [] -> 1 <= split_num -> times_nonneg chunks ->
  1 <= bucket_width_of chunks split_num ->
  divide_chunks_by_time chunks split_num =
  Ret (spec_buckets split_num (bucket_width_of chunks split_num) chunks).
Proof.
  intros Hne Hsplit Hnn Hw. unfold divide_chunks_by_time, py_last.
  unfold bucket_width_of in *.
  destruct (rev chunks) as [|lastc r] eqn:Er.
  - destruct chunks as [|c0 rest]; [congruence|].
    exfalso. exact (rev_cons_not_nil c0 rest Er).
  - unfold py_floordiv. rewrite inject_Z_nonzero by lia.
    set (d := Qfloor _) in *.
    rewrite <- (bucket_state_nil split_num d).
    rewrite (divide_loop_state split_num d); try assumption.
    + rewrite app_nil_l, filter_bucket_state by assumption. reflexivity.
    + intros c Hc. apply (Hnn c Hc).
Qed.

(** ** Permutation of the chunks through bucketing *)

Lemma py_index_lt (len : nat) (i : Z) (n : nat) :
  py_index len i = Some n -> (n < len)%nat.
Proof.
  unfold py_index. set (j := if i <? 0 then i + Z.of_nat len else i).
  destruct (Z.leb_spec 0 j); destruct (Z.ltb_spec j (Z.of_nat len));
    simpl; intros Hs; try discriminate; injection Hs as <-; lia.
Qed.

Lemma concat_list_modify_snoc {A} (x : A) (n : nat) (l : list (list A)) :
  (n < length l)%nat ->
  Permutation (concat (list_modify (fun b => b ++ [x]) n l)) (concat l ++ [x]).
Proof.
  revert n. induction l as [|b l IH]; intros [|n] Hn; simpl in *; try lia.
  - rewrite <- !app_assoc. apply Permutation_app_head, Permutation_app_comm.
  - rewrite <- app_assoc. apply Permutation_app_head, IH. lia.
Qed.

Lemma divide_loop_perm (split_num : Z) (delta : Q) (r : list chunk)
    (sc sc' : list (list chunk)) :
  divide_loop split_num delta r sc = Ret sc' ->
  Permutation (concat sc') (concat sc ++ r).
Proof.
  revert sc. induction r as [|tc r IH]; intros sc H; simpl in H.
  - injection H as <-. rewrite app_nil_r. reflexivity.
  - destruct (py_floordiv (start tc) delta) as [idx0|e]; [|discriminate].
    match type of H with context [py_append_at ?s ?i tc] =>
      set (sc1 := s) in H; set (idx := i) in H end.
    assert (Hc1 : concat sc1 = concat sc).
    { unfold sc1. match goal with |- context [if ?b then sc ++ [[]] else sc] =>
        destruct b end; [|reflexivity].
      rewrite concat_app. simpl. rewrite !app_nil_r. reflexivity. }
    unfold py_append_at in H.
    destruct (py_index (length sc1) idx) as [n|] eqn:Ei; [|discriminate].
    apply IH in H. rewrite H.
    rewrite (concat_list_modify_snoc tc n sc1 (py_index_lt _ _ _ Ei)).
    rewrite Hc1, <- app_assoc. reflexivity.
Qed.

Lemma concat_filter_nonempty {A} (l : list (list A)) :
  concat (filter nonempty l) = concat l.
Proof.
  induction l as [|b l IH]; simpl; [reflexivity|].
  unfold nonempty at 1. destruct b; simpl; [exact IH|]. rewrite IH. reflexivity.
Qed.

Lemma concat_repeat_nil {A} (n : nat) : concat (repeat (@nil A) n) = [].
Proof. induction n; simpl; auto. Qed.

Lemma divide_chunks_by_time_perm (chunks : list chunk) (split_num : Z)
    (bs : list (list chunk)) :
  divide_chunks_by_time chunks split_num = Ret bs ->
  Permutation (concat bs) chunks.
Proof.
  unfold divide_chunks_by_time.
  destruct (py_last chunks); [|discriminate].
  destruct (py_floordiv _ _); [|discriminate].
  destruct (divide_loop _ _ _ _) as [sc|] eqn:E; [|discriminate].
  intros H. injection H as <-. rewrite concat_filter_nonempty.
  apply divide_loop_perm in E. rewrite concat_repeat_nil in E. exact E.
Qed.


(** ** Boundary behaviour of bucketing *)


Lemma divide_zero_width (chunks : list chunk) (split_num : Z) :
  chunks <> [] -> bucket_width_of chunks split_num = 0 ->
  divide_chunks_by_time chunks split_num = Exc ZeroDivisionError.
Proof.
  destruct chunks as [|c0 rest]; [congruence|]. intros _ Hw.
  unfold divide_chunks_by_time, py_last, bucket_width_of in *.
  destruct (rev (c0 :: rest)) as [|lastc r] eqn:Er;
    [exfalso; exact (rev_cons_not_nil c0 rest Er)|].
  unfold py_floordiv. destruct (Z.eq_dec split_num 0) as [->|Hne].
  - reflexivity.
  - rewrite inject_Z_nonzero by exact Hne. rewrite Hw. reflexivity.
Qed.

Lemma Qfloor_div_nonpos (s : Q) (d : Z) :
  d < 0 -> (0 <= s)%Q -> Qfloor (s / inject_Z d)%Q <= 0.
Proof.
  intros Hd Hs. destruct d as [|p|p]; try lia. unfold Qdiv.
  change (/ inject_Z (Z.neg p))%Q with (Z.neg 1 # p)%Q.
  change 0 with (Qfloor 0). apply Qfloor_resp_le.
  assert (H : ((Z.neg 1 # p) * s <= 0 * s)%Q).
  { apply Qmult_le_compat_r; [unfold Qle; simpl; lia | exact Hs]. }
  rewrite Qmult_0_l in H. rewrite Qmult_comm. exact H.
Qed.

Lemma divide_loop_negative (split_num d : Z) (c : chunk) (rest : list chunk) :
  split_num < 0 -> d < 0 -> (0 <= start c)%Q ->
  divide_loop split_num (inject_Z d) (c :: rest) [] = Exc IndexError.
Proof.
  intros Hs Hd Hc. simpl. unfold py_floordiv.
  rewrite inject_Z_nonzero by lia.
  pose proof (Qfloor_div_nonpos (start c) d Hd Hc) as H0.
  set (i0 := Qfloor _) in *.
  destruct (Z.ltb_spec i0 split_num).
  - destruct (Z.ltb_spec 0 (i0 + 1)); [lia|].
    unfold py_append_at, py_index. simpl.
    destruct (Z.ltb_spec i0 0); [|lia]. rewrite Z.add_0_r.
    destruct (Z.leb_spec 0 i0); [lia|]. reflexivity.
  - destruct (Z.ltb_spec 0 (split_num + 1)); [lia|].
    unfold py_append_at, py_index. simpl.
    destruct (Z.ltb_spec split_num 0); [|lia]. rewrite Z.add_0_r.
    destruct (Z.leb_spec 0 split_num); [lia|]. reflexivity.
Qed.


(** ** Claims on bucketing *)

(** The ten chunks of the C3 scenario: starts 0, 10, ..., 90, one second each. *)
Definition ten_chunks : list chunk :=
  map (fun k => ck (inject_Z (10 * k)) 1) [0;1;2;3;4;5;6;7;8;9].

(** C1: for a non-empty chunk list, [split_num >= 1] and
    [bucket_width >= 1] (time offsets non-negative), bucket [k] of the result
    holds exactly the chunks with [min(floor(start / bucket_width), split_num) = k],
    the non-empty ones in ascending [k] for [k = 0 .. split_num]; and for some
    input a chunk gets index [split_num] and that overflow bucket is returned. *)
Theorem C1_bucket_index_clamp :
  (forall (chunks : list chunk) (split_num : Z),
     chunks <> [] -> 1 <= split_num -> times_nonneg chunks ->
     1 <= bucket_width_of chunks split_num ->
     divide_chunks_by_time chunks split_num =
     Ret (spec_buckets split_num (bucket_width_of chunks split_num) chunks)) /\
  (exists (chunks : list chunk) (split_num : Z) (bs : list (list chunk)) b,
     divide_chunks_by_time chunks split_num = Ret bs /\ In b bs /\ b <> [] /\
     forall c, In c b ->
       spec_bucket_index split_num (bucket_width_of chunks split_num) c = split_num).
Proof.
  split.
  - exact divide_chunks_by_time_spec.
  - exists [ck 0 2; ck 10 1], 5, [[ck 0 2]; [ck 10 1]], [ck 10 1].
    split; [vm_compute; reflexivity|].
    split; [right; left; reflexivity|].
    split; [discriminate|].
    intros c [<-|[]]. vm_compute. reflexivity.
Qed.

Lemma C1_bucket_index_clamp_witness :
  ([ck 0 2; ck 10 1] <> [] /\ 1 <= 5 /\ times_nonneg [ck 0 2; ck 10 1] /\
   1 <= bucket_width_of [ck 0 2; ck 10 1] 5) /\
  divide_chunks_by_time [ck 0 2; ck 10 1] 5 =
  Ret (spec_buckets 5 (bucket_width_of [ck 0 2; ck 10 1] 5) [ck 0 2; ck 10 1]).
Proof.
  assert (Hnn : times_nonneg [ck 0 2; ck 10 1]).
  { intros c [<-|[<-|[]]]; simpl; split; unfold Qle; simpl; lia. }
  assert (Hw : 1 <= bucket_width_of [ck 0 2; ck 10 1] 5) by (vm_compute; discriminate).
  split; [split; [discriminate|split; [lia|split; [exact Hnn|exact Hw]]]|].
  apply (proj1 C1_bucket_index_clamp); [discriminate|lia|exact Hnn|exact Hw].
Defined.

(** C2: whenever bucketing returns, the returned buckets hold exactly the
    input chunks: their lengths sum to the input length, the concatenation
    is a permutation of the input, and if the input chunks are distinct no
    chunk occurs twice across the buckets. *)
Theorem C2_bucketing_preserves_chunks (chunks : list chunk) (split_num : Z)
    (bs : list (list chunk)) :
  divide_chunks_by_time chunks split_num = Ret bs ->
  list_sum (map (@length chunk) bs) = length chunks /\
  Permutation (concat bs) chunks /\
  (NoDup chunks -> NoDup (concat bs)).
Proof.
  intros H. pose proof (divide_chunks_by_time_perm chunks split_num bs H) as Hp.
  split; [|split].
  - rewrite <- length_concat. apply Permutation_length. exact Hp.
  - exact Hp.
  - intros Hn. apply (Permutation_NoDup (Permutation_sym Hp)). exact Hn.
Qed.

Lemma C2_bucketing_preserves_chunks_witness :
  divide_chunks_by_time ten_chunks 5 = Ret (spec_buckets 5 18 ten_chunks) /\
  list_sum (map (@length chunk) (spec_buckets 5 18 ten_chunks)) = length ten_chunks.
Proof.
  assert (H : divide_chunks_by_time ten_chunks 5 = Ret (spec_buckets 5 18 ten_chunks))
    by (vm_compute; reflexivity).
  split; [exact H|].
  exact (proj1 (C2_bucketing_preserves_chunks ten_chunks 5 _ H)).
Defined.




(** C9: bucketing raises [ZeroDivisionError] when the bucket width
    [floor(total_time / split_num)] is zero (non-empty list), raises
    [IndexError] on the empty list, and on well-formed data (non-negative
    times) returns normally only for a non-empty list with width [>= 1]. *)
Theorem C9_bucketing_partial :
  (forall (chunks : list chunk) (split_num : Z),
     chunks <> [] -> bucket_width_of chunks split_num = 0 ->
     divide_chunks_by_time chunks split_num = Exc ZeroDivisionError) /\
  (forall split_num : Z, divide_chunks_by_time [] split_num = Exc IndexError) /\
  (forall (chunks : list chunk) (split_num : Z) (bs : list (list chunk)),
     times_nonneg chunks -> divide_chunks_by_time chunks split_num = Ret bs ->
     chunks <> [] /\ 1 <= bucket_width_of chunks split_num).
Proof.
  split; [exact divide_zero_width|]. split; [reflexivity|].
  intros chunks split_num bs Hnn H.
  destruct chunks as [|c0 rest]; [discriminate|].
  split; [discriminate|].
  destruct (Z.lt_trichotomy (bucket_width_of (c0 :: rest) split_num) 0)
    as [Hneg|[Hz|Hpos]]; [|rewrite divide_zero_width in H by (discriminate || exact Hz);
                           discriminate|lia].
  exfalso. revert H Hneg. unfold divide_chunks_by_time, py_last, bucket_width_of.
  destruct (rev (c0 :: rest)) as [|lastc r] eqn:Er;
    [exfalso; exact (rev_cons_not_nil c0 rest Er)|].
  assert (Hin : In lastc (c0 :: rest)) by (apply in_rev; rewrite Er; left; reflexivity).
  destruct (Hnn lastc Hin) as [Hs Hd].
  unfold py_floordiv.
  destruct (Z.lt_trichotomy split_num 0) as [Hsn|[->|Hsp]].
  - rewrite inject_Z_nonzero by lia.
    set (d := Qfloor _). intros H Hneg.
    destruct split_num as [|p|p]; try lia. simpl repeat in H.
    rewrite divide_loop_negative in H; [discriminate|lia|exact Hneg|].
    apply (Hnn c0). left. reflexivity.
  - simpl. discriminate.
  - intros _ Hneg.
    pose proof (Qfloor_div_nonneg (start lastc + duration lastc) split_num
                  ltac:(lia) ltac:(lra)). lia.
Qed.

Lemma C9_bucketing_partial_witness :
  divide_chunks_by_time [ck 0 1; ck 2 1] 5 = Exc ZeroDivisionError /\
  ~ (exists bs, divide_chunks_by_time [ck 0 1; ck 2 1] 5 = Ret bs).
Proof.
  assert (H : divide_chunks_by_time [ck 0 1; ck 2 1] 5 = Exc ZeroDivisionError).
  { apply (proj1 C9_bucketing_partial); [discriminate|vm_compute; reflexivity]. }
  split; [exact H|]. intros [bs Hb]. rewrite H in Hb. discriminate.
Defined.

(** ** JSON round trip *)

Section JsonRoundTrip.

Local Open Scope N_scope.

Lemma hex_value_digit (d : N) : d < 16 -> hex_value (hex_digit d) = Some d.
Proof.
  intros Hd. unfold hex_digit, hex_value.
  destruct (N.ltb_spec d 10).
  - rewrite (proj2 (N.leb_le 48 (48 + d))) by lia.
    rewrite (proj2 (N.leb_le (48 + d) 57)) by lia. cbn [andb]. f_equal. lia.
  - rewrite (proj2 (N.leb_gt (87 + d) 57)) by lia. rewrite andb_false_r.
    rewrite (proj2 (N.leb_le 97 (87 + d))) by lia.
    rewrite (proj2 (N.leb_le (87 + d) 102)) by lia. cbn [andb]. f_equal. lia.
Qed.

Lemma hex4_control (c : N) :
  c < 32 -> hex4 48 48 (hex_digit (c / 16)) (hex_digit (c mod 16)) = Some c.
Proof.
  intros Hc. unfold hex4.
  assert (H1 : c / 16 < 16) by (apply N.Div0.div_lt_upper_bound; lia).
  assert (H2 : c mod 16 < 16) by (apply N.mod_lt; lia).
  rewrite (hex_value_digit _ H1), (hex_value_digit _ H2). simpl.
  f_equal. pose proof (N.div_mod c 16 ltac:(lia)). lia.
Qed.

Lemma scanstring_encoded (s rest : pystr) :
  scanstring (flat_map encode_char s ++ 34 :: rest) = Ret (s, rest).
Proof.
  induction s as [|c s IH]; [reflexivity|].
  simpl flat_map. rewrite <- app_assoc.
  remember (flat_map encode_char s ++ 34 :: rest) as X eqn:HX.
  unfold encode_char.
  destruct (N.eqb_spec c 34) as [->|H34]; [simpl; rewrite IH; reflexivity|].
  destruct (N.eqb_spec c 92) as [->|H92]; [simpl; rewrite IH; reflexivity|].
  destruct (N.eqb_spec c 8) as [->|H8]; [simpl; rewrite IH; reflexivity|].
  destruct (N.eqb_spec c 12) as [->|H12]; [simpl; rewrite IH; reflexivity|].
  destruct (N.eqb_spec c 10) as [->|H10]; [simpl; rewrite IH; reflexivity|].
  destruct (N.eqb_spec c 13) as [->|H13]; [simpl; rewrite IH; reflexivity|].
  destruct (N.eqb_spec c 9) as [->|H9]; [simpl; rewrite IH; reflexivity|].
  destruct (N.ltb_spec c 32) as [Hlt|Hge].
  - simpl. rewrite (hex4_control c Hlt).
    assert (Hh : is_high_surrogate c = false).
    { unfold is_high_surrogate. destruct (N.leb_spec 55296 c); [lia|reflexivity]. }
    rewrite Hh. rewrite IH. reflexivity.
  - simpl.
    destruct (N.eqb_spec c 34); [lia|]. destruct (N.eqb_spec c 92); [lia|].
    destruct (N.ltb_spec c 32); [lia|]. rewrite IH. reflexivity.
Qed.

Lemma skip_ws_encoded (s W : pystr) :
  skip_ws (encode_basestring s ++ W) = encode_basestring s ++ W.
Proof. reflexivity. Qed.

Lemma scan_once_str (f : nat) (s W : pystr) :
  scan_once (S f) (encode_basestring s ++ W) = Ret (JStr s, W).
Proof.
  unfold encode_basestring. rewrite <- !app_assoc. simpl.
  rewrite scanstring_encoded. reflexivity.
Qed.

Lemma join_strs_head (y : pystr) (l : list pystr) :
  exists T, join item_sep (map dumps (map JStr (y :: l))) = encode_basestring y ++ T.
Proof.
  destruct l as [|z l].
  - exists []. simpl. rewrite app_nil_r. reflexivity.
  - eexists. reflexivity.
Qed.

Lemma parse_items_S (f : nat) (acc : list json) (s : pystr) :
  parse_items (S f) acc s =
  match scan_once f s with
  | Exc e => Exc e
  | Ret (v, r) =>
      match skip_ws r with
      | d :: r' =>
          if d =? 93 then Ret (JArr (acc ++ [v]), r')
          else if d =? 44 then parse_items f (acc ++ [v]) (skip_ws r')
          else Exc JSONDecodeError
      | [] => Exc JSONDecodeError
      end
  end.
Proof. reflexivity. Qed.

Lemma scan_once_array (f : nat) (r : pystr) :
  scan_once (S f) (91 :: r) =
  match skip_ws r with
  | d :: r' => if d =? 93 then Ret (JArr [], r') else parse_items f [] (d :: r')
  | [] => Exc JSONDecodeError
  end.
Proof. reflexivity. Qed.

Lemma parse_members_S (f : nat) (acc : list (pystr * json)) (c : N) (r : pystr) :
  c = 34 ->
  parse_members (S f) acc (c :: r) =
  match scanstring r with
  | Exc e => Exc e
  | Ret (k, r1) =>
      match skip_ws r1 with
      | d :: r2 =>
          if d =? 58 then
            match scan_once f (skip_ws r2) with
            | Exc e => Exc e
            | Ret (v, r3) =>
                match skip_ws r3 with
                | e :: r4 =>
                    if e =? 125 then Ret (JObj (dict_set acc k v), r4)
                    else if e =? 44 then parse_members f (dict_set acc k v) (skip_ws r4)
                    else Exc JSONDecodeError
                | [] => Exc JSONDecodeError
                end
            end
          else Exc JSONDecodeError
      | [] => Exc JSONDecodeError
      end
  end.
Proof. intros ->. reflexivity. Qed.

Lemma parse_items_strs (l : list pystr) :
  forall (acc : list json) (rest : pystr) (f : nat),
  l <> [] -> (length l < f)%nat ->
  parse_items f acc (join item_sep (map dumps (map JStr l)) ++ 93 :: rest) =
  Ret (JArr (acc ++ map JStr l), rest).
Proof.
  induction l as [|x l IH]; intros acc rest f Hne Hf; [congruence|].
  destruct f as [|[|f]]; simpl in Hf; try lia.
  destruct l as [|y l].
  - change (join item_sep (map dumps (map JStr [x]))) with (encode_basestring x).
    rewrite parse_items_S, scan_once_str. reflexivity.
  - change (join item_sep (map dumps (map JStr (x :: y :: l))))
      with (encode_basestring x ++ item_sep ++ join item_sep (map dumps (map JStr (y :: l)))).
    rewrite <- !app_assoc.
    destruct (join_strs_head y l) as [T HT].
    remember (join item_sep (map dumps (map JStr (y :: l)))) as J eqn:HJ.
    rewrite parse_items_S, scan_once_str. cbn [item_sep app skip_ws is_json_ws orb N.eqb Pos.eqb].
    rewrite HT, <- app_assoc, skip_ws_encoded, app_assoc, <- HT.
    rewrite IH by (try discriminate; simpl in *; lia).
    rewrite <- app_assoc. reflexivity.
Qed.

Lemma scan_once_strs (l : list pystr) (W : pystr) (f : nat) :
  (length l < f)%nat ->
  scan_once (S f) (dumps (JArr (map JStr l)) ++ W) = Ret (JArr (map JStr l), W).
Proof.
  intros Hf. destruct l as [|x l].
  - reflexivity.
  - cbn [dumps]. rewrite <- !app_assoc.
    destruct (join_strs_head x l) as [T HT].
    change ([91] ++ ?X) with (91 :: X). rewrite scan_once_array.
    rewrite HT, <- app_assoc, skip_ws_encoded.
    unfold encode_basestring at 1. cbn [app N.eqb Pos.eqb].
    replace (34 :: (flat_map encode_char x ++ [34]) ++ T ++ 93 :: W)
      with ((encode_basestring x ++ T) ++ 93 :: W)
      by (unfold encode_basestring; rewrite <- !app_assoc; reflexivity).
    rewrite <- HT, parse_items_strs by (try discriminate; exact Hf).
    reflexivity.
Qed.

Lemma parse_members_step (f : nat) (acc : list (pystr * json)) (k : pystr)
    (v : json) (Z : pystr) :
  (forall W, skip_ws (dumps v ++ W) = dumps v ++ W) ->
  (forall W, scan_once f (dumps v ++ W) = Ret (v, W)) ->
  parse_members (S f) acc
    (encode_basestring k ++ key_sep ++ dumps v ++ item_sep ++ Z) =
  parse_members f (dict_set acc k v) (skip_ws Z).
Proof.
  intros Hws Hv. unfold encode_basestring. rewrite <- !app_assoc.
  cbn [app]. rewrite parse_members_S by reflexivity. rewrite scanstring_encoded.
  cbn [skip_ws key_sep is_json_ws app N.eqb Pos.eqb orb].
  rewrite Hws, Hv. reflexivity.
Qed.

Lemma parse_members_last (f : nat) (acc : list (pystr * json)) (k : pystr)
    (v : json) (rest : pystr) :
  (forall W, skip_ws (dumps v ++ W) = dumps v ++ W) ->
  (forall W, scan_once f (dumps v ++ W) = Ret (v, W)) ->
  parse_members (S f) acc (encode_basestring k ++ key_sep ++ dumps v ++ 125 :: rest) =
  Ret (JObj (dict_set acc k v), rest).
Proof.
  intros Hws Hv. unfold encode_basestring. rewrite <- !app_assoc.
  cbn [app]. rewrite parse_members_S by reflexivity. rewrite scanstring_encoded.
  cbn [skip_ws key_sep is_json_ws app N.eqb Pos.eqb orb].
  rewrite Hws, Hv. reflexivity.
Qed.

Lemma dumps_summary (r : summary_record) :
  dumps (summary_json r) =
  123 :: member (py "url") (JStr (s_url r)) ++ item_sep ++
         member (py "title") (JStr (s_title r)) ++ item_sep ++
         member (py "detail") (JArr (map JStr (s_detail r))) ++ item_sep ++
         member (py "concise") (JStr (s_concise r)) ++ [125].
Proof. unfold summary_json. cbn [dumps map join app]. rewrite <- !app_assoc. reflexivity. Qed.

Lemma scan_object_start (f : nat) (k Z : pystr) :
  scan_once (S f) (123 :: encode_basestring k ++ Z) = parse_members f [] (encode_basestring k ++ Z).
Proof. reflexivity. Qed.

Lemma summary_scan (r : summary_record) (W : pystr) (f : nat) :
  (length (s_detail r) + 6 < f)%nat ->
  scan_once f (dumps (summary_json r) ++ W) = Ret (summary_json r, W).
Proof.
  intros Hf.
  destruct f as [|[|[|[|[|[|f]]]]]]; try (simpl in Hf; lia).
  rewrite dumps_summary. cbn [app]. unfold member. rewrite <- !app_assoc.
  rewrite scan_object_start.
  rewrite parse_members_step
    by (intros; first [reflexivity | apply scan_once_str]).
  rewrite skip_ws_encoded.
  rewrite parse_members_step
    by (intros; first [reflexivity | apply scan_once_str]).
  rewrite skip_ws_encoded.
  rewrite parse_members_step
    by (intros; first [reflexivity | apply scan_once_strs; lia]).
  rewrite skip_ws_encoded. change ([125] ++ W) with (125 :: W).
  rewrite parse_members_last
    by (intros; first [reflexivity | apply scan_once_str]).
  reflexivity.
Qed.

Lemma join_length_ge (sep : pystr) (parts : list pystr) :
  (forall p, In p parts -> (1 <= length p)%nat) ->
  (length parts <= length (join sep parts))%nat.
Proof.
  induction parts as [|x parts IH]; intros Hp; [simpl; lia|].
  destruct parts as [|y parts].
  - simpl. specialize (Hp x (or_introl eq_refl)). lia.
  - change (join sep (x :: y :: parts)) with (x ++ sep ++ join sep (y :: parts)).
    rewrite !length_app.
    assert (Hx := Hp x (or_introl eq_refl)).
    assert (IH' := IH (fun p Hin => Hp p (or_intror Hin))).
    simpl in *. lia.
Qed.

Lemma dumps_summary_length (r : summary_record) :
  (length (s_detail r) + 6 < length (dumps (summary_json r)))%nat.
Proof.
  rewrite dumps_summary. unfold member. cbn [dumps].
  assert (H := join_length_ge item_sep (map dumps (map JStr (s_detail r)))).
  rewrite !length_map in H.
  assert (H1 : (length (s_detail r) <=
                length (join item_sep (map dumps (map JStr (s_detail r)))))%nat).
  { apply H. intros p Hin. apply in_map_iff in Hin as [v [<- Hv]].
    apply in_map_iff in Hv as [x [<- _]]. cbn [dumps]. unfold encode_basestring.
    simpl. lia. }
  cbn [length app]. rewrite !length_app. unfold item_sep, key_sep in *. cbn [length]. rewrite !length_app. cbn [length]. lia.
Qed.

Lemma encode_char_no_cr (c : N) : ~ In 13 (encode_char c).
Proof.
  unfold encode_char.
  destruct (N.eqb_spec c 34); [simpl; intuition discriminate|].
  destruct (N.eqb_spec c 92); [simpl; intuition discriminate|].
  destruct (N.eqb_spec c 8); [simpl; intuition discriminate|].
  destruct (N.eqb_spec c 12); [simpl; intuition discriminate|].
  destruct (N.eqb_spec c 10); [simpl; intuition discriminate|].
  destruct (N.eqb_spec c 13); [simpl; intuition discriminate|].
  destruct (N.eqb_spec c 9); [simpl; intuition discriminate|].
  destruct (N.ltb_spec c 32).
  - unfold hex_digit.
    destruct (N.ltb_spec (c / 16) 10); destruct (N.ltb_spec (c mod 16) 10);
    generalize (c / 16) (c mod 16); intros a b;
    cbn [In]; intros Hin; repeat destruct Hin as [Hin|Hin]; try lia; exact Hin.
  - cbn [In]. intros [Hin|[]]. lia.
Qed.

Lemma encode_basestring_no_cr (s : pystr) : ~ In 13 (encode_basestring s).
Proof.
  unfold encode_basestring. rewrite !in_app_iff. intros [H|[H|H]].
  - destruct H as [H|[]]; discriminate.
  - apply in_flat_map in H as [c [_ Hc]]. exact (encode_char_no_cr c Hc).
  - destruct H as [H|[]]; discriminate.
Qed.

Lemma join_in (x : N) (sep : pystr) (parts : list pystr) :
  In x (join sep parts) -> In x sep \/ exists p, In p parts /\ In x p.
Proof.
  induction parts as [|a parts IH]; [simpl; tauto|].
  destruct parts as [|b parts].
  - intros H. right. exists a. simpl. auto.
  - change (join sep (a :: b :: parts)) with (a ++ sep ++ join sep (b :: parts)).
    rewrite !in_app_iff. intros [H|[H|H]].
    + right. exists a. simpl. auto.
    + left. exact H.
    + destruct (IH H) as [Hs|[p [Hp Hx]]]; [left; exact Hs|].
      right. exists p. simpl. auto.
Qed.

Lemma member_str_no_cr (k s : pystr) : ~ In 13 (member k (JStr s)).
Proof.
  unfold member. cbn [dumps]. rewrite !in_app_iff. intros [H|[H|H]].
  - exact (encode_basestring_no_cr _ H).
  - destruct H as [H|[H|[]]]; discriminate.
  - exact (encode_basestring_no_cr _ H).
Qed.

Lemma member_strs_no_cr (k : pystr) (l : list pystr) :
  ~ In 13 (member k (JArr (map JStr l))).
Proof.
  unfold member. cbn [dumps]. rewrite !in_app_iff. intros [H|[H|[H|[H|H]]]].
  - exact (encode_basestring_no_cr _ H).
  - destruct H as [H|[H|[]]]; discriminate.
  - destruct H as [H|[]]; discriminate.
  - apply join_in in H as [H|[p [Hp H]]].
    + destruct H as [H|[H|[]]]; discriminate.
    + apply in_map_iff in Hp as [v [<- Hv]]. apply in_map_iff in Hv as [x [<- _]].
      exact (encode_basestring_no_cr _ H).
  - destruct H as [H|[]]; discriminate.
Qed.

Lemma dumps_summary_no_cr (r : summary_record) : ~ In 13 (dumps (summary_json r)).
Proof.
  rewrite dumps_summary.
  assert (Hs : ~ In 13 item_sep) by (intros [H|[H|[]]]; discriminate).
  intros [H|H]; [discriminate|].
  rewrite !in_app_iff in H.
  repeat match type of H with _ \/ _ => destruct H as [H|H] end;
  first [ exact (member_str_no_cr _ _ H) | exact (member_strs_no_cr _ _ H)
        | exact (Hs H) | destruct H as [H|[]]; discriminate ].
Qed.





Lemma universal_newlines_id (s : pystr) : ~ In 13 s -> universal_newlines s = s.
Proof.
  induction s as [|c s IH]; intros H; [reflexivity|].
  simpl. destruct (N.eqb_spec c 13) as [->|Hc]; [exfalso; apply H; left; reflexivity|].
  f_equal. apply IH. intros Hin. apply H. right. exact Hin.
Qed.

Lemma loads_summary (r : summary_record) :
  loads (dumps (summary_json r)) = Ret (summary_json r).
Proof.
  assert (H := summary_scan r [] _ (dumps_summary_length r)).
  rewrite app_nil_r in H.
  unfold loads. remember (dumps (summary_json r)) as s eqn:Hs.
  assert (Hhd : exists X, s = 123 :: X) by (rewrite Hs, dumps_summary; eexists; reflexivity).
  destruct Hhd as [X HX]. rewrite HX in H |- *.
  change (skip_ws (123 :: X)) with (123 :: X).
  cbv iota beta. rewrite H. reflexivity.
Qed.

End JsonRoundTrip.

(** ** Saving and reading the stored summary *)

Section SummaryFile.

Local Open Scope N_scope.

Lemma pystr_eqb_refl (s : pystr) : pystr_eqb s s = true.
Proof. unfold pystr_eqb. destruct (list_eq_dec N.eq_dec s s); congruence. Qed.








Lemma pystr_eqb_neq (a b : pystr) : a <> b -> pystr_eqb a b = false.
Proof. unfold pystr_eqb. destruct (list_eq_dec N.eq_dec a b); congruence. Qed.

Lemma pystr_eqb_true (a b : pystr) : pystr_eqb a b = true -> a = b.
Proof. unfold pystr_eqb. destruct (list_eq_dec N.eq_dec a b); congruence. Qed.

Lemma set_dirs_eta (w : world) : set_dirs (dirs w) w = w.
Proof. destruct w; reflexivity. Qed.

Lemma set_files_eta (w : world) : set_files (files w) w = w.
Proof. destruct w; reflexivity. Qed.

Lemma parent_dir_ok_cons (w : world) (d : pystr) :
  d <> [] -> parent_dir_ok w d = dirs w d.
Proof. destruct d; [contradiction|reflexivity]. Qed.

Lemma update_file_same (p txt : pystr) (f : pystr -> option pystr) :
  update_file p txt f p = Some txt.
Proof. unfold update_file. rewrite pystr_eqb_refl. reflexivity. Qed.

Lemma update_file_other (p q txt : pystr) (f : pystr -> option pystr) :
  q <> p -> update_file p txt f q = f q.
Proof. intros Hq. unfold update_file. rewrite pystr_eqb_neq by exact Hq. reflexivity. Qed.

(** What [open(p, "w").write(txt)] does to the state, by outcome. *)
Lemma write_text_effect (p txt : pystr) (w : world) :
  match write_text p txt w with
  | Done _ w' => p <> [] /\ parent_dir_ok w (py_dirname p) = true /\ dirs w p = false /\
                 w' = set_files (update_file p txt (files w)) w
  | Raised e w' =>
      (e = UnicodeEncodeError /\ w' = set_files (update_file p [] (files w)) w) \/
      ((e = FileNotFoundError \/ e = NotADirectoryError \/ e = IsADirectoryError) /\ w' = w)
  end.
Proof.
  unfold write_text. destruct p as [|c p].
  { right. split; [left|]; reflexivity. }
  destruct (parent_dir_ok w (py_dirname (c :: p))) eqn:Ep.
  - destruct (dirs w (c :: p)) eqn:Ed.
    { right. split; [right; right|]; reflexivity. }
    destruct (forallb utf8_encodable txt).
    + split; [discriminate|]. split; [reflexivity|]. split; reflexivity.
    + left. split; reflexivity.
  - right. split; [|reflexivity]. unfold missing_parent_error.
    destruct (files w _); [right; left|left]; reflexivity.
Qed.


Lemma dirs_grown_refl (name : pystr) (w : world) : dirs_grown_along name w w.
Proof. split; [symmetry; apply set_dirs_eta | intros q Hq; contradiction Hq; reflexivity]. Qed.

Lemma dirs_grown_trans (name : pystr) (w1 w2 w3 : world) :
  dirs_grown_along name w1 w2 -> dirs_grown_along name w2 w3 -> dirs_grown_along name w1 w3.
Proof.
  intros [E2 H2] [E3 H3]. split.
  - transitivity (set_dirs (dirs w3) w2); [exact E3|]. rewrite E2 at 1. reflexivity.
  - intros q Hq. destruct (Bool.bool_dec (dirs w3 q) (dirs w2 q)) as [E|E].
    + rewrite E in Hq |- *. exact (H2 q Hq).
    + exact (H3 q E).
Qed.

Lemma dirs_grown_ancestor (head name : pystr) (k : nat) (w w' : world) :
  head = Nat.iter k py_dirname name ->
  dirs_grown_along head w w' -> dirs_grown_along name w w'.
Proof.
  intros Eh [E H]. split; [exact E|]. intros q Hq.
  destruct (H q Hq) as [T [n En]]. split; [exact T|].
  exists (n + k)%nat. rewrite Nat.iter_add, <- Eh. exact En.
Qed.

(** [os.mkdir(d)] creates [d] or raises, changing nothing. *)
Lemma os_mkdir_effect (d : pystr) (w : world) :
  match os_mkdir d w with
  | Done _ w' => dirs_grown_along d w w'
  | Raised e w' => dirs_grown_along d w w' /\
      (e = FileNotFoundError \/ e = FileExistsError \/ e = NotADirectoryError)
  end.
Proof.
  unfold os_mkdir. destruct d as [|c d].
  { split; [apply dirs_grown_refl | left; reflexivity]. }
  destruct (_ || _).
  { split; [apply dirs_grown_refl | right; left; reflexivity]. }
  destruct (parent_dir_ok w (py_dirname (c :: d))).
  - split; [reflexivity|]. intros q Hq. cbn [dirs set_dirs] in Hq |- *.
    destruct (pystr_eqb q (c :: d)) eqn:E; cbn [orb] in Hq |- *;
      [|contradiction Hq; reflexivity].
    split; [reflexivity|]. exists O. apply pystr_eqb_true. exact E.
  - split; [apply dirs_grown_refl|]. unfold missing_parent_error.
    destruct (files w _); [right; right|left]; reflexivity.
Qed.

Lemma except_file_exists_cases (m : M unit) (w : world) :
  (exists w', m w = Raised FileExistsError w' /\ except_file_exists m w = Done tt w') \/
  except_file_exists m w = m w.
Proof.
  unfold except_file_exists. destruct (m w) as [u w'|e w'].
  - right. reflexivity.
  - destruct e; try (right; reflexivity). left. exists w'. split; reflexivity.
Qed.

(** [os.makedirs(name)] creates directories among [name] and its
    ancestors only, and raises only what [os.mkdir] raises. *)
Lemma makedirs_fuel_effect (fuel : nat) : forall (name : pystr) (w : world),
  match makedirs_fuel fuel name w with
  | Done _ w' => dirs_grown_along name w w'
  | Raised e w' => dirs_grown_along name w w' /\
      (e = FileNotFoundError \/ e = FileExistsError \/ e = NotADirectoryError)
  end.
Proof.
  induction fuel as [|fuel IH]; intros name w; [apply os_mkdir_effect|].
  cbn [makedirs_fuel].
  assert (Hsplit : exists head tail k,
    (if nonempty (py_basename name) then (py_dirname name, py_basename name)
     else (py_dirname (py_dirname name), py_basename (py_dirname name))) = (head, tail) /\
    head = Nat.iter k py_dirname name).
  { destruct (nonempty (py_basename name)).
    - exists (py_dirname name), (py_basename name), 1%nat. split; reflexivity.
    - exists (py_dirname (py_dirname name)), (py_basename (py_dirname name)), 2%nat.
      split; reflexivity. }
  destruct Hsplit as [head [tail [k [Ep Eh]]]]. rewrite Ep.
  unfold mbind at 1, os_path_exists, gets.
  assert (Hcont : forall w1, dirs_grown_along name w w1 ->
    match (if pystr_eqb tail [46] then mret tt else os_mkdir name) w1 with
    | Done _ w' => dirs_grown_along name w w'
    | Raised e w' => dirs_grown_along name w w' /\
        (e = FileNotFoundError \/ e = FileExistsError \/ e = NotADirectoryError)
    end).
  { intros w1 H1. destruct (pystr_eqb tail [46]); [exact H1|].
    pose proof (os_mkdir_effect name w1) as H2.
    destruct (os_mkdir name w1) as [u w2|e w2].
    - exact (dirs_grown_trans _ _ _ _ H1 H2).
    - destruct H2 as [H2 He]. split; [exact (dirs_grown_trans _ _ _ _ H1 H2)|exact He]. }
  destruct (_ && _ && _).
  - unfold mbind.
    destruct (except_file_exists_cases (makedirs_fuel fuel head) w) as [[w1 [Hm He]]|He];
      rewrite He.
    + apply Hcont. pose proof (IH head w) as H1. rewrite Hm in H1.
      exact (dirs_grown_ancestor _ _ _ _ _ Eh (proj1 H1)).
    + pose proof (IH head w) as H1.
      destruct (makedirs_fuel fuel head w) as [u w1|e w1].
      * apply Hcont. exact (dirs_grown_ancestor _ _ _ _ _ Eh H1).
      * destruct H1 as [H1 Hk]. split; [exact (dirs_grown_ancestor _ _ _ _ _ Eh H1)|exact Hk].
  - apply os_mkdir_effect.
Qed.

Lemma os_makedirs_effect (d : pystr) (w : world) :
  match os_makedirs d w with
  | Done _ w' => dirs_grown_along d w w'
  | Raised e w' => dirs_grown_along d w w' /\
      (e = FileNotFoundError \/ e = FileExistsError \/ e = NotADirectoryError)
  end.
Proof. apply makedirs_fuel_effect. Qed.

Lemma os_makedirs_nil (w : world) : os_makedirs [] w = Raised FileNotFoundError w.
Proof. reflexivity. Qed.

Lemma save_summary_unfold (path : pystr) (r : summary_record) (w : world) :
  save_summary path r w =
    if dirs w (py_dirname path) then write_text path (dumps (summary_json r)) w
    else match os_makedirs (py_dirname path) w with
         | Done _ w1 => write_text path (dumps (summary_json r)) w1
         | Raised e w1 => Raised e w1
         end.
Proof.
  unfold save_summary, os_path_isdir, gets, mbind, mret.
  destruct (dirs w (py_dirname path)); [reflexivity|].
  destruct (os_makedirs _ w); reflexivity.
Qed.

(** What saving a summary record does, by outcome: directories among the
    file's directory and its ancestors may be made first ([w1]); then the
    file is written, or left empty by a failed encoding. *)
Lemma save_summary_effect (path : pystr) (r : summary_record) (w : world) :
  exists w1, dirs_grown_along (py_dirname path) w w1 /\
  match save_summary path r w with
  | Done _ w' => dirs w1 (py_dirname path) = true /\ dirs w1 path = false /\
      w' = set_files (update_file path (dumps (summary_json r)) (files w1)) w1
  | Raised e w' =>
      ((e = FileNotFoundError \/ e = FileExistsError \/ e = NotADirectoryError \/
        e = IsADirectoryError) /\ w' = w1) \/
      (e = UnicodeEncodeError /\ w' = set_files (update_file path [] (files w1)) w1)
  end.
Proof.
  rewrite save_summary_unfold.
  destruct (dirs w (py_dirname path)) eqn:Ed.
  - exists w. split; [apply dirs_grown_refl|].
    pose proof (write_text_effect path (dumps (summary_json r)) w) as H.
    destruct (write_text path _ w) as [u w'|e w'].
    + destruct H as [_ [_ [Hd Hw]]]. split; [exact Ed|]. split; [exact Hd|exact Hw].
    + destruct H as [[He Hw]|[He Hw]]; [right; split; assumption|].
      left. split; [|exact Hw]. destruct He as [->|[->| ->]]; auto.
  - pose proof (os_makedirs_effect (py_dirname path) w) as Hm.
    destruct (os_makedirs (py_dirname path) w) as [u w1|e w1] eqn:Hmk.
    + exists w1. split; [exact Hm|].
      pose proof (write_text_effect path (dumps (summary_json r)) w1) as H.
      destruct (write_text path _ w1) as [u' w'|e w'].
      * destruct H as [_ [Hpar [Hd Hw]]].
        assert (Hd0 : py_dirname path <> []).
        { intros E. rewrite E, os_makedirs_nil in Hmk. discriminate. }
        rewrite parent_dir_ok_cons in Hpar by exact Hd0.
        split; [exact Hpar|]. split; [exact Hd|exact Hw].
      * destruct H as [[He Hw]|[He Hw]]; [right; split; assumption|].
        left. split; [|exact Hw]. destruct He as [->|[->| ->]]; auto.
    + exists w1. destruct Hm as [Hm He]. split; [exact Hm|].
      left. split; [|reflexivity]. destruct He as [->|[->| ->]]; auto.
Qed.

(** Saving changes only the files and the directories. *)
Lemma save_summary_preserves {X} (obs : world -> X) (path : pystr) (r : summary_record) :
  (forall f w, obs (set_files f w) = obs w) ->
  (forall d w, obs (set_dirs d w) = obs w) ->
  preserves obs (save_summary path r).
Proof.
  intros Hf Hd w. destruct (save_summary_effect path r w) as [w1 [[Hw1 _] H]].
  destruct (save_summary path r w) as [u w'|e w'].
  - destruct H as [_ [_ ->]]. rewrite Hf, Hw1. apply Hd.
  - destruct H as [[_ ->]|[_ ->]]; [|rewrite Hf]; rewrite Hw1; apply Hd.
Qed.

Lemma save_summary_log (path : pystr) (r : summary_record) (w : world) :
  match save_summary path r w with
  | Done _ w' | Raised _ w' => chain_log w' = chain_log w
  end.
Proof.
  pose proof (save_summary_preserves chain_log path r (fun _ _ => eq_refl)
                (fun _ _ => eq_refl) w) as H.
  destruct (save_summary path r w); exact H.
Qed.

(** A save that returns has written the dumped record to [path], in an
    existing directory. *)
Lemma save_summary_done_inv (path : pystr) (r : summary_record) (w w' : world) u :
  save_summary path r w = Done u w' ->
  files w' path = Some (dumps (summary_json r)) /\ dirs w' (py_dirname path) = true.
Proof.
  intros E. destruct (save_summary_effect path r w) as [w1 [_ H]]. rewrite E in H.
  destruct H as [Hd [_ ->]]. split; [apply update_file_same|exact Hd].
Qed.

(** Whatever its outcome, a save changes no other file than [path], and
    creates no other directory than the one of [path] and its ancestors. *)
Lemma save_summary_frame (path : pystr) (r : summary_record) (w : world) :
  match save_summary path r w with
  | Done _ w' | Raised _ w' =>
      (forall q, q <> path -> files w' q = files w q) /\
      (forall q, dirs w' q <> dirs w q ->
         dirs w' q = true /\ exists n, q = Nat.iter n py_dirname (py_dirname path))
  end.
Proof.
  destruct (save_summary_effect path r w) as [w1 [[Hw1 Hg] H]].
  assert (Hf1 : files w1 = files w) by (rewrite Hw1; reflexivity).
  destruct (save_summary path r w) as [u w'|e w'].
  - destruct H as [_ [_ ->]]. split; [|exact Hg].
    intros q Hq. cbn [files set_files]. rewrite update_file_other by exact Hq.
    rewrite Hf1. reflexivity.
  - destruct H as [[_ ->]|[_ ->]]; split; try exact Hg.
    + intros q _. rewrite Hf1. reflexivity.
    + intros q Hq. cbn [files set_files]. rewrite update_file_other by exact Hq.
      rewrite Hf1. reflexivity.
Qed.






End SummaryFile.

(** ** [run]: chain invocations and the persisted record *)

Section Run.

Local Open Scope nat_scope.

Variable chain : chain_oracle.
Variable trace : chain_trace.

Lemma chain_arun_log (verbose : bool) (docs : list pystr) (w : world) :
  forall o, o = chain_arun chain trace verbose docs w ->
  match o with
  | Done s w' => chain (length (chain_log w)) docs = Some s /\
                 chain_log w' = chain_log w ++ [docs] /\ files w' = files w
  | Raised e w' => e = ChainError /\ files w' = files w
  end.
Proof.
  intros o ->. unfold chain_arun. cbv zeta.
  destruct verbose, (chain (length (chain_log w)) docs); auto.
Qed.

(** Whatever its outcome, an invocation is logged, and the verbose chain
    has printed its trace. *)
Lemma chain_arun_stdout (verbose : bool) (docs : list pystr) (w : world) :
  match chain_arun chain trace verbose docs w with
  | Done _ w' | Raised _ w' =>
      chain_log w' = chain_log w ++ [docs] /\
      stdout w' = stdout w ++ (if verbose then trace (length (chain_log w)) docs else [])
  end.
Proof.
  unfold chain_arun. cbv zeta.
  destruct verbose, (chain (length (chain_log w)) docs); cbn;
    rewrite ?app_nil_r; split; reflexivity.
Qed.

Lemma detail_loop_raised (verbose : bool) (bs : list (list chunk)) :
  forall idx acc w e w',
  detail_loop chain trace verbose bs idx acc w = Raised e w' ->
  e = ChainError /\ files w' = files w.
Proof.
  induction bs as [|b bs IH]; intros idx acc w e w' H; [discriminate|].
  simpl in H. unfold mbind at 1 in H.
  set (w1 := (if Nat.ltb 0 idx then time_sleep 3 else mret tt) w) in H.
  assert (Hw1 : exists w1', w1 = Done tt w1' /\ files w1' = files w).
  { subst w1. destruct (Nat.ltb 0 idx); eexists; split; reflexivity. }
  destruct Hw1 as [w1' [Hw1 Hf1]]. rewrite Hw1 in H.
  unfold mbind in H.
  pose proof (chain_arun_log verbose (documents b) w1' _ eq_refl) as Ha.
  destruct (chain_arun chain trace verbose (documents b) w1') as [s w2|e2 w2].
  - destruct Ha as [_ [_ Hf2]]. rewrite <- Hf1, <- Hf2. exact (IH _ _ _ _ _ H).
  - injection H as -> ->. destruct Ha as [He Hf2]. rewrite Hf2. split; assumption.
Qed.

Lemma detail_loop_done (verbose : bool) (bs : list (list chunk)) :
  forall idx acc w ds w',
  detail_loop chain trace verbose bs idx acc w = Done ds w' ->
  chain_log w' = chain_log w ++ map documents bs /\ files w' = files w /\
  exists l, ds = acc ++ l /\ length l = length bs /\
    forall i b, nth_error bs i = Some b ->
      exists s, nth_error l i = Some s /\
                chain (length (chain_log w) + i) (documents b) = Some s.
Proof.
  induction bs as [|b bs IH]; intros idx acc w ds w' H.
  - injection H as <- <-. split; [rewrite app_nil_r; reflexivity|]. split; [reflexivity|].
    exists []. rewrite app_nil_r. split; [reflexivity|]. split; [reflexivity|].
    intros [|i] b' Hb; discriminate.
  - simpl in H. unfold mbind at 1 in H.
    set (w1 := (if Nat.ltb 0 idx then time_sleep 3 else mret tt) w) in H.
    assert (Hw1 : exists w1', w1 = Done tt w1' /\ files w1' = files w /\
                              chain_log w1' = chain_log w).
    { subst w1. destruct (Nat.ltb 0 idx); eexists; split; try split; reflexivity. }
    destruct Hw1 as [w1' [Hw1 [Hf1 Hl1]]]. rewrite Hw1 in H.
    unfold mbind in H.
    pose proof (chain_arun_log verbose (documents b) w1' _ eq_refl) as Ha.
    destruct (chain_arun chain trace verbose (documents b) w1') as [s w2|e2 w2];
      [|discriminate].
    destruct Ha as [Hc [Hl2 Hf2]].
    destruct (IH _ _ _ _ _ H) as [Hl [Hf [l [Hds [Hlen Hnth]]]]].
    split; [rewrite Hl, Hl2, Hl1, <- app_assoc; reflexivity|].
    split; [rewrite Hf, Hf2, Hf1; reflexivity|].
    exists (s :: l). split; [rewrite Hds, <- app_assoc; reflexivity|].
    split; [simpl; rewrite Hlen; reflexivity|].
    intros [|i] b' Hb.
    + injection Hb as <-. exists s. split; [reflexivity|].
      rewrite Nat.add_0_r, <- Hl1. exact Hc.
    + destruct (Hnth i b' Hb) as [s' [Hs' Hc']]. exists s'. split; [exact Hs'|].
      rewrite Hl2, Hl1, length_app in Hc'. simpl in Hc'.
      replace (length (chain_log w) + S i)%nat with (length (chain_log w) + 1 + i)%nat by lia.
      exact Hc'.
Qed.

(** A run that raises either raised from a chain invocation, before any
    file was written, or raised after every chain invocation answered. *)
Lemma run_raised (self : youtube_summarize) (w : world) e w' :
  run chain trace self w = Raised e w' ->
  (e = ChainError /\ files w' = files w) \/
  exists s bs, chain (length (chain_log w)) (documents (chunks self)) = Some s /\
    chain_log w' = chain_log w ++ documents (chunks self) :: map documents bs /\
    forall i b, nth_error bs i = Some b ->
      exists s', chain (length (chain_log w) + 1 + i) (documents b) = Some s'.
Proof.
  unfold run, mbind at 1.
  pose proof (chain_arun_log (debug self) (documents (chunks self)) w _ eq_refl) as Ha.
  destruct (chain_arun chain trace (debug self) (documents (chunks self)) w)
    as [cs w1|e1 w1].
  2:{ intros H; injection H as <- <-. left. exact Ha. }
  destruct Ha as [Hc [Hl1 Hf1]].
  unfold mbind at 1.
  destruct (divide_chunks_by_time (chunks self) 5) as [bs|e2]; cbn [lift].
  2:{ unfold raise. intros H; injection H as _ <-. right. exists cs, [].
      split; [exact Hc|]. split; [exact Hl1|]. intros [|i] b Hb; discriminate. }
  unfold mret at 1, mbind at 1.
  destruct (detail_loop chain trace (debug self) bs 0 [] w1) as [ds w2|e3 w2] eqn:Hd.
  2:{ intros H; injection H as <- <-. left.
      destruct (detail_loop_raised _ _ _ _ _ _ _ Hd) as [He Hf2].
      split; [exact He|]. rewrite Hf2. exact Hf1. }
  destruct (detail_loop_done _ _ _ _ _ _ _ Hd) as [Hl2 [_ [l [_ [_ Hnth]]]]].
  unfold mbind.
  pose proof (save_summary_log (summary_file self)
                (mk_summary (url self) (title self) ds cs) w2) as Hs.
  destruct (save_summary (summary_file self) _ w2) as [[] w3|e4 w3]; [discriminate|].
  intros H; injection H as _ <-. right. exists cs, bs.
  split; [exact Hc|]. split; [rewrite Hs, Hl2, Hl1, <- app_assoc; reflexivity|].
  intros i b Hb. destruct (Hnth i b Hb) as [s' [_ Hs']]. exists s'.
  rewrite Hl1, length_app in Hs'. exact Hs'.
Qed.

Lemma run_done (self : youtube_summarize) (w : world) r w' :
  run chain trace self w = Done r w' ->
  exists bs, divide_chunks_by_time (chunks self) 5 = Ret bs /\
    chain (length (chain_log w)) (documents (chunks self)) = Some (s_concise r) /\
    chain_log w' = chain_log w ++ documents (chunks self) :: map documents bs /\
    length (s_detail r) = length bs /\
    forall i b, nth_error bs i = Some b ->
      exists s, nth_error (s_detail r) i = Some s /\
                chain (length (chain_log w) + 1 + i) (documents b) = Some s.
Proof.
  unfold run, mbind at 1.
  pose proof (chain_arun_log (debug self) (documents (chunks self)) w _ eq_refl) as Ha.
  destruct (chain_arun chain trace (debug self) (documents (chunks self)) w)
    as [cs w1|e1 w1]; [|discriminate].
  destruct Ha as [Hc [Hl1 _]].
  unfold mbind at 1.
  destruct (divide_chunks_by_time (chunks self) 5) as [bs|e2]; cbn [lift]; [|discriminate].
  unfold mret at 1, mbind at 1.
  destruct (detail_loop chain trace (debug self) bs 0 [] w1) as [ds w2|e3 w2] eqn:Hd;
    [|discriminate].
  destruct (detail_loop_done _ _ _ _ _ _ _ Hd) as [Hl2 [_ [l [Hds [Hlen Hnth]]]]].
  unfold mbind.
  pose proof (save_summary_log (summary_file self)
                (mk_summary (url self) (title self) ds cs) w2) as Hs.
  destruct (save_summary (summary_file self) _ w2) as [[] w3|e4 w3]; [|discriminate].
  unfold mret. intros H; injection H as <- <-.
  exists bs. split; [reflexivity|]. split; [exact Hc|].
  split; [rewrite Hs, Hl2, Hl1, <- app_assoc; reflexivity|].
  cbn [s_detail]. rewrite Hds. simpl. split; [exact Hlen|].
  intros i b Hb. destruct (Hnth i b Hb) as [s [Hs' Hc']]. exists s. split; [exact Hs'|].
  rewrite Hl1, length_app in Hc'. exact Hc'.
Qed.

(** No invocation logged after [w] failed, given the log a run leaves. *)
Lemma log_all_answered (w w' : world) (D : list pystr) (s : pystr)
    (bs : list (list chunk)) k docs :
  chain (length (chain_log w)) D = Some s ->
  chain_log w' = chain_log w ++ D :: map documents bs ->
  (forall i b, nth_error bs i = Some b ->
     exists s', chain (length (chain_log w) + 1 + i) (documents b) = Some s') ->
  length (chain_log w) <= k -> nth_error (chain_log w') k = Some docs ->
  chain k docs <> None.
Proof.
  intros Hc Hl Hnth Hk Hd. rewrite Hl in Hd.
  rewrite nth_error_app2 in Hd by exact Hk.
  destruct (k - length (chain_log w)) as [|i] eqn:Ei.
  - injection Hd as <-. replace k with (length (chain_log w)) by lia.
    rewrite Hc. discriminate.
  - cbn [nth_error] in Hd. rewrite nth_error_map in Hd.
    destruct (nth_error bs i) as [b|] eqn:Hb; [|discriminate].
    injection Hd as <-. destruct (Hnth i b Hb) as [s' Hs].
    replace k with (length (chain_log w) + 1 + i) by lia.
    rewrite Hs. discriminate.
Qed.

End Run.

Lemma divide_nonempty (cs : list chunk) (n : Z) (bs : list (list chunk)) :
  divide_chunks_by_time cs n = Ret bs -> Forall (fun b => b <> []) bs.
Proof.
  unfold divide_chunks_by_time.
  destruct (py_last cs); [|discriminate].
  destruct (py_floordiv _ _); [|discriminate].
  destruct (divide_loop _ _ _ _) as [sc|]; [|discriminate].
  intros H; injection H as <-.
  apply Forall_forall. intros b Hb. apply filter_In in Hb as [_ Hb].
  unfold nonempty in Hb. intros ->. discriminate.
Qed.

(** C4: when a chain invocation made by a run fails, the run raises that
    failure, and the files are those from before the run: no summary record
    is created or updated, and the concise summary computed before the
    failure is not returned. *)
Theorem C4_chain_failure_aborts (chain : chain_oracle) (trace : chain_trace)
    (self : youtube_summarize) (w : world) :
  match run chain trace self w with
  | Done _ w' | Raised _ w' =>
      exists k docs, (length (chain_log w) <= k)%nat /\
        nth_error (chain_log w') k = Some docs /\ chain k docs = None
  end ->
  exists w', run chain trace self w = Raised ChainError w' /\ files w' = files w.
Proof.
  destruct (run chain trace self w) as [r w'|e w'] eqn:E; intros [k [docs [Hk [Hd Hn]]]].
  - exfalso.
    destruct (run_done chain trace self w r w' E) as [bs [_ [Hc [Hl [_ Hnth]]]]].
    refine (log_all_answered chain w w' _ _ bs k docs Hc Hl _ Hk Hd Hn).
    intros i b Hb. destruct (Hnth i b Hb) as [s [_ Hs]]. exists s. exact Hs.
  - destruct (run_raised chain trace self w e w' E) as [[-> Hf]|[s [bs [Hc [Hl Hnth]]]]].
    + exists w'. split; [reflexivity|exact Hf].
    + exfalso. exact (log_all_answered chain w w' _ _ bs k docs Hc Hl Hnth Hk Hd Hn).
Qed.

(** The chain fails on the second bucket, after the concise summary and the
    first detail summary were produced. *)
Lemma C4_chain_failure_aborts_witness :
  exists w', run (chain_failing_at 2) quiet_trace two_chunk_video empty_world =
    Raised ChainError w' /\
    files w' = files empty_world.
Proof.
  apply C4_chain_failure_aborts.
  vm_compute. exists 2%nat. eexists. split; [lia|]. split; reflexivity.
Defined.

(** C5: in a successful run the buckets are the non-empty ones returned by
    [_divide_chunks_by_time(5)], the chain is invoked once on all chunks and
    then once per bucket in bucket order, and the [i]-th detail string is the
    answer of the invocation on the [i]-th bucket. *)
Theorem C5_one_detail_per_bucket (chain : chain_oracle) (trace : chain_trace)
    (self : youtube_summarize) (w : world) (r : summary_record) (w' : world) :
  run chain trace self w = Done r w' ->
  exists bs, divide_chunks_by_time (chunks self) 5 = Ret bs /\
    Forall (fun b => b <> []) bs /\
    chain_log w' = chain_log w ++ documents (chunks self) :: map documents bs /\
    length (s_detail r) = length bs /\
    forall i b, nth_error bs i = Some b ->
      exists s, nth_error (s_detail r) i = Some s /\
                chain (length (chain_log w) + 1 + i)%nat (documents b) = Some s.
Proof.
  intros E.
  destruct (run_done chain trace self w r w' E) as [bs [Hbs [_ [Hl [Hlen Hnth]]]]].
  exists bs. split; [exact Hbs|]. split; [exact (divide_nonempty _ _ _ Hbs)|].
  split; [exact Hl|]. split; [exact Hlen|]. exact Hnth.
Qed.

Lemma C5_one_detail_per_bucket_witness :
  exists r w', run answering_chain quiet_trace two_chunk_video empty_world = Done r w' /\
    s_detail r = [[1%N]; [2%N]] /\
    exists bs, divide_chunks_by_time (chunks two_chunk_video) 5 = Ret bs /\
      length (s_detail r) = length bs.
Proof.
  destruct (run answering_chain quiet_trace two_chunk_video empty_world) as [r w'|e w'] eqn:E;
    [|vm_compute in E; discriminate].
  exists r, w'. split; [reflexivity|].
  assert (Hr : s_detail r = [[1%N]; [2%N]]) by (vm_compute in E; injection E as <- _; reflexivity).
  split; [exact Hr|].
  destruct (C5_one_detail_per_bucket _ _ _ _ _ _ E) as [bs [Hbs [_ [_ [Hlen _]]]]].
  exists bs. split; [exact Hbs | exact Hlen].
Defined.

(** ** The QA loop *)

Section QALoop.

Local Open Scope nat_scope.

Lemma drop_while_split {A} (f : A -> bool) (l : list A) :
  exists pre, l = pre ++ drop_while f l /\ forallb f pre = true.
Proof.
  induction l as [|x l [pre [Hl Hf]]]; [exists []; split; reflexivity|].
  simpl. destruct (f x) eqn:Ex.
  - exists (x :: pre). simpl. rewrite Ex, Hf. split; [rewrite <- Hl; reflexivity|reflexivity].
  - exists []. split; reflexivity.
Qed.

Lemma drop_while_head {A} (f : A -> bool) (l : list A) :
  drop_while f l = [] \/ exists x r, drop_while f l = x :: r /\ f x = false.
Proof.
  induction l as [|x l IH]; [left; reflexivity|].
  simpl. destruct (f x) eqn:Ex; [exact IH|]. right. exists x, l. split; [reflexivity|exact Ex].
Qed.

Lemma drop_while_stop {A} (f : A -> bool) (x : A) (r : list A) :
  f x = false -> drop_while f (x :: r) = x :: r.
Proof. intros H. simpl. rewrite H. reflexivity. Qed.

Lemma drop_while_nil_iff {A} (f : A -> bool) (l : list A) :
  drop_while f l = [] <-> forallb f l = true.
Proof.
  induction l as [|x l IH]; [split; reflexivity|].
  simpl. destruct (f x); simpl; [exact IH|]. split; discriminate.
Qed.

Lemma forallb_rev {A} (f : A -> bool) (l : list A) : forallb f (rev l) = forallb f l.
Proof.
  induction l as [|x l IH]; [reflexivity|].
  simpl. rewrite forallb_app, IH. simpl. rewrite andb_true_r, andb_comm. reflexivity.
Qed.

(** [s.strip()] is empty exactly when [s] is whitespace only. *)
Lemma py_strip_nil_iff (s : pystr) : py_strip s = [] <-> forallb py_isspace s = true.
Proof.
  unfold py_strip. split.
  - intros H. apply (f_equal (@rev N)) in H. rewrite rev_involutive in H. simpl in H.
    apply drop_while_nil_iff in H. rewrite forallb_rev in H.
    destruct (drop_while_head py_isspace s) as [Hn|[x [r [Hd Hx]]]].
    + apply drop_while_nil_iff. exact Hn.
    + rewrite Hd in H. simpl in H. rewrite Hx in H. discriminate.
  - intros H. apply drop_while_nil_iff in H. rewrite H. reflexivity.
Qed.

(** A string without leading or trailing whitespace is its own strip. *)
Lemma py_strip_trimmed (u : pystr) :
  drop_while py_isspace u = u -> drop_while py_isspace (rev u) = rev u -> py_strip u = u.
Proof.
  intros H1 H2. unfold py_strip. rewrite H1, H2. apply rev_involutive.
Qed.

Lemma py_strip_idem (s : pystr) : py_strip (py_strip s) = py_strip s.
Proof.
  apply py_strip_trimmed.
  - unfold py_strip.
    set (t := drop_while py_isspace s).
    destruct (drop_while_split py_isspace (rev t)) as [A [HA HfA]].
    destruct (drop_while_head py_isspace (rev t)) as [Hv|[x [r [Hv Hx]]]].
    + rewrite Hv. reflexivity.
    + rewrite Hv. cbn [rev].
      destruct (drop_while_head py_isspace s) as [Ht|[y [q [Ht Hy]]]].
      * fold t in Ht. rewrite Ht in Hv. discriminate.
      * fold t in Ht.
        assert (Hrt : t = (rev r ++ [x]) ++ rev A).
        { apply (f_equal (@rev N)) in HA. rewrite rev_involutive, Hv in HA.
          rewrite HA, rev_app_distr. reflexivity. }
        destruct (rev r ++ [x]) as [|z m] eqn:Ez.
        -- apply app_eq_nil in Ez as [_ Ez]. discriminate.
        -- rewrite Ht in Hrt. injection Hrt as Hyz _. subst z.
           apply drop_while_stop. exact Hy.
  - unfold py_strip. rewrite rev_involutive.
    destruct (drop_while_head py_isspace (rev (drop_while py_isspace s))) as [Hv|[x [r [Hv Hx]]]].
    + rewrite Hv. reflexivity.
    + rewrite Hv. apply drop_while_stop. exact Hx.
Qed.

Lemma pystr_eqb_nil (s : pystr) : pystr_eqb s [] = true <-> s = [].
Proof.
  unfold pystr_eqb. destruct (list_eq_dec N.eq_dec s []); split; congruence.
Qed.

Lemma emit_emit (o1 o2 : list out_item) (w : world) :
  emit o2 (emit o1 w) = emit (o1 ++ o2) w.
Proof. unfold emit. simpl. rewrite app_assoc. reflexivity. Qed.

Lemma print_sources_emit (srcs : list (pystr * pystr * pystr * pystr)) (w : world) :
  print_sources srcs w = Done tt (emit (sources_output srcs) w).
Proof.
  revert w. induction srcs as [|[[[score id] time] source] srcs IH]; intros w; [reflexivity|].
  unfold print_sources. cbn [fold_right]. fold (print_sources srcs).
  unfold mbind at 1, print at 1, modify at 1. rewrite IH, emit_emit. reflexivity.
Qed.

Variable yqa : youtube_qa.
Variable detail : bool.

Lemma qa_loop_eof (w : world) :
  qa_loop yqa detail [] w = Raised EOFError (emit [OText (py "Query: ")] w).
Proof. reflexivity. Qed.

Lemma qa_loop_empty (line : pystr) (rest : list pystr) (w : world) :
  py_strip line = [] ->
  qa_loop yqa detail (line :: rest) w = Done tt (emit [OText (py "Query: ")] w).
Proof. intros H. cbn [qa_loop]. rewrite H. reflexivity. Qed.

Lemma qa_loop_answer (line : pystr) (rest : list pystr) (w : world) :
  py_strip line <> [] ->
  exists w1, qa_loop yqa detail (line :: rest) w = qa_loop yqa detail rest w1 /\
    stdout w1 = stdout w ++ answer_output yqa detail (length (queries w)) (py_strip line) /\
    queries w1 = queries w ++ [py_strip line].
Proof.
  intros H. cbn [qa_loop].
  assert (He : pystr_eqb (py_strip line) [] = false).
  { destruct (pystr_eqb (py_strip line) []) eqn:E; [apply pystr_eqb_nil in E; congruence|reflexivity]. }
  unfold mbind at 1, print at 1, modify at 1. rewrite He.
  unfold mbind at 1, print at 1, modify at 1.
  unfold mbind at 1, gets at 1.
  unfold mbind at 1, answer_query at 1.
  unfold mbind at 1, print at 1, modify at 1.
  unfold mbind at 1.
  destruct detail.
  - rewrite print_sources_emit. eexists. split; [reflexivity|].
    unfold answer_output. cbn [stdout queries emit log_query].
    rewrite <- !app_assoc. split; reflexivity.
  - unfold mret. eexists. split; [reflexivity|].
    unfold answer_output. cbn [stdout queries emit log_query].
    rewrite <- !app_assoc. split; reflexivity.
Qed.

Lemma qa_loop_session (qs : list pystr) :
  Forall (fun q => py_strip q <> []) qs ->
  forall w,
  (forall e rest, py_strip e = [] ->
    exists w', qa_loop yqa detail (qs ++ e :: rest) w = Done tt w' /\
      stdout w' = stdout w ++ session_output yqa detail (length (queries w)) (map py_strip qs)
                  ++ [OText (py "Query: ")] /\
      queries w' = queries w ++ map py_strip qs) /\
  (exists w', qa_loop yqa detail qs w = Raised EOFError w' /\
      stdout w' = stdout w ++ session_output yqa detail (length (queries w)) (map py_strip qs)
                  ++ [OText (py "Query: ")] /\
      queries w' = queries w ++ map py_strip qs).
Proof.
  induction 1 as [|q qs Hq Hqs IH]; intros w.
  - split.
    + intros e rest He. eexists. split; [apply qa_loop_empty; exact He|].
      split; [reflexivity|]. cbn. rewrite app_nil_r. reflexivity.
    + eexists. split; [apply qa_loop_eof|]. split; [reflexivity|]. cbn. rewrite app_nil_r. reflexivity.
  - destruct (qa_loop_answer q qs w Hq) as [w1 [Hstep [Ho Hqu]]].
    destruct (IH w1) as [IHd IHe].
    assert (Hk : length (queries w1) = S (length (queries w))).
    { rewrite Hqu, length_app. simpl. lia. }
    split.
    + intros e rest He.
      destruct (qa_loop_answer q (qs ++ e :: rest) w Hq) as [w1' [Hstep' [Ho' Hqu']]].
      destruct (IH w1') as [IHd' _].
      destruct (IHd' e rest He) as [w' [Hr [Hso Hsq]]].
      exists w'. rewrite <- app_comm_cons, Hstep'. split; [exact Hr|].
      assert (Hk' : length (queries w1') = S (length (queries w))).
      { rewrite Hqu', length_app. simpl. lia. }
      rewrite Hso, Ho', Hk', Hsq, Hqu'. cbn [map session_output].
      rewrite <- !app_assoc. split; reflexivity.
    + destruct IHe as [w' [Hr [Hso Hsq]]].
      exists w'. rewrite Hstep. split; [exact Hr|].
      rewrite Hso, Ho, Hk, Hsq, Hqu. cbn [map session_output].
      rewrite <- !app_assoc. split; reflexivity.
Qed.

Lemma qa_loop_queries (lines : list pystr) :
  forall w,
  match qa_loop yqa detail lines w with
  | Done _ w' | Raised _ w' =>
      exists n, queries w' = queries w ++ map py_strip (firstn n lines) /\
                Forall (fun q => py_strip q <> []) (firstn n lines)
  end.
Proof.
  induction lines as [|line rest IH]; intros w.
  - rewrite qa_loop_eof. exists 0. split; [rewrite app_nil_r; reflexivity | constructor].
  - destruct (list_eq_dec N.eq_dec (py_strip line) []) as [He|Hne].
    + rewrite (qa_loop_empty line rest w He). exists 0.
      split; [rewrite app_nil_r; reflexivity | constructor].
    + destruct (qa_loop_answer line rest w Hne) as [w1 [Hstep [_ Hqu]]].
      rewrite Hstep. specialize (IH w1).
      destruct (qa_loop yqa detail rest w1) as [u w'|e w'];
      destruct IH as [n [Hn Hf]]; exists (S n); cbn [firstn map];
      (split; [rewrite Hn, Hqu, <- app_assoc; reflexivity | constructor; assumption]).
Qed.

End QALoop.

Lemma qa_summary_hint_missing (vid store_dir : pystr) (w : world) :
  env_get SUMMARY_STORE_DIR w = Done store_dir w ->
  files w (summary_path store_dir vid) = None ->
  dirs w (summary_path store_dir vid) = false ->
  qa_summary_hint vid w = Done tt w.
Proof.
  intros Henv Hf Hd. unfold qa_summary_hint, mbind at 1. rewrite Henv.
  unfold mbind, os_path_exists, gets. rewrite Hf, Hd. reflexivity.
Qed.

(** C7: when [SUMMARY_STORE_DIR] is set and no summary is stored for the
    video, the summary hint prints nothing, changes nothing and raises
    nothing, so the session is the query loop alone. *)
Theorem C7_missing_summary_ignored (yqa : youtube_qa) (vid : pystr) (detail : bool)
    (lines : list pystr) (w : world) (store_dir : pystr) :
  env_get SUMMARY_STORE_DIR w = Done store_dir w ->
  files w (summary_path store_dir vid) = None ->
  dirs w (summary_path store_dir vid) = false ->
  qa_summary_hint vid w = Done tt w /\
  qa yqa vid detail lines w = qa_loop yqa detail lines w.
Proof.
  intros Henv Hf Hd.
  assert (H := qa_summary_hint_missing vid store_dir w Henv Hf Hd).
  split; [exact H|]. unfold qa, mbind at 1. rewrite H. reflexivity.
Qed.

Lemma C7_missing_summary_ignored_witness :
  qa echo_qa (py "vid") false [py "hello"; []] bare_world =
  qa_loop echo_qa false [py "hello"; []] bare_world.
Proof.
  refine (proj2 (C7_missing_summary_ignored echo_qa (py "vid") false [py "hello"; []]
                   bare_world (py "/data/summary") _ _ _));
  reflexivity.
Defined.

(** C8 (counterexample): the input line of one space is not empty, yet the
    loop ends on it without answering. *)
Lemma C8_whitespace_line_terminates :
  py " " <> [] /\
  exists w', qa_loop echo_qa false [py " "; py "hi"] empty_world = Done tt w' /\
    queries w' = [] /\ stdout w' = [OText (py "Query: ")].
Proof.
  split; [discriminate|]. eexists. split; [reflexivity|]. split; reflexivity.
Qed.

(** C8 (amended): from [AwaitingQuery], each line that is non-empty after
    stripping goes through [Answering]: its prompt, exactly one answer for
    the stripped query, and the sources in detail mode, then back to
    [AwaitingQuery]. The first line that is empty after stripping leads to
    [Terminated], a normal return after its prompt. If the input runs out
    first, [input()] raises [EOFError]. *)
Theorem C8_qa_transitions (yqa : youtube_qa) (detail : bool) (qs : list pystr)
    (w : world) :
  Forall (fun q => py_strip q <> []) qs ->
  (forall e rest, py_strip e = [] ->
    exists w', qa_loop yqa detail (qs ++ e :: rest) w = Done tt w' /\
      stdout w' = stdout w ++ session_output yqa detail (length (queries w)) (map py_strip qs)
                  ++ [OText (py "Query: ")] /\
      queries w' = queries w ++ map py_strip qs) /\
  (exists w', qa_loop yqa detail qs w = Raised EOFError w' /\
      stdout w' = stdout w ++ session_output yqa detail (length (queries w)) (map py_strip qs)
                  ++ [OText (py "Query: ")] /\
      queries w' = queries w ++ map py_strip qs).
Proof. intros Hqs. exact (qa_loop_session yqa detail qs Hqs w). Qed.

Lemma C8_qa_transitions_witness :
  exists w', qa_loop echo_qa true ([py " hi "] ++ [py " "; py "ignored"]) empty_world = Done tt w' /\
    queries w' = [py "hi"].
Proof.
  destruct (proj1 (C8_qa_transitions echo_qa true [py " hi "] empty_world
                     ltac:(repeat constructor; vm_compute; discriminate))
              (py " ") [py "ignored"] ltac:(vm_compute; reflexivity))
    as [w' [Hr [_ Hq]]].
  exists w'. split; [exact Hr|]. rewrite Hq. vm_compute. reflexivity.
Defined.

(** C10: a line of whitespace only ends the loop like an empty line (strip
    gives the empty string exactly on such lines), and every query passed to
    [run_query] is the strip of an input line: non-empty and unchanged by a
    further strip. *)
Theorem C10_whitespace_and_stripped (yqa : youtube_qa) (detail : bool)
    (lines : list pystr) (w : world) :
  (forall line rest, forallb py_isspace line = true ->
     qa_loop yqa detail (line :: rest) w = Done tt (emit [OText (py "Query: ")] w)) /\
  (forall line, py_strip line = [] <-> forallb py_isspace line = true) /\
  match qa_loop yqa detail lines w with
  | Done _ w' | Raised _ w' =>
      exists n, queries w' = queries w ++ map py_strip (firstn n lines) /\
        Forall (fun q => py_strip q = q /\ q <> []) (map py_strip (firstn n lines))
  end.
Proof.
  split; [|split].
  - intros line rest H. apply qa_loop_empty. apply py_strip_nil_iff. exact H.
  - exact py_strip_nil_iff.
  - pose proof (qa_loop_queries yqa detail lines w) as H.
    destruct (qa_loop yqa detail lines w) as [u w'|e w'];
    destruct H as [n [Hn Hf]]; exists n; (split; [exact Hn|]);
    apply Forall_map; (eapply Forall_impl; [|exact Hf]);
    intros q Hq; (split; [apply py_strip_idem | exact Hq]).
Qed.

Lemma C10_whitespace_and_stripped_witness :
  forallb py_isspace [32; 9; 12288]%N = true /\
  qa_loop echo_qa false [[32; 9; 12288]%N; py "hi"] empty_world =
    Done tt (emit [OText (py "Query: ")] empty_world).
Proof.
  split; [reflexivity|].
  apply (proj1 (C10_whitespace_and_stripped echo_qa false [] empty_world)).
  reflexivity.
Defined.

(** ** Bucketing: size, time ranges and order of the buckets *)

Lemma divide_loop_length_bound (n : Z) (delta : Q) (tcs : list chunk) :
  forall sc sc', (length sc <= Z.to_nat n + 1)%nat ->
  divide_loop n delta tcs sc = Ret sc' -> (length sc' <= Z.to_nat n + 1)%nat.
Proof.
  induction tcs as [|tc rest IH]; intros sc sc' Hl H; simpl in H.
  - injection H as <-. exact Hl.
  - destruct (py_floordiv (start tc) delta) as [idx0|e]; [|discriminate].
    set (idx := if idx0 <? n then idx0 else n) in H.
    assert (Hidx : idx <= n) by (subst idx; destruct (Z.ltb_spec idx0 n); lia).
    set (sc1 := if Z.of_nat (length sc) <? idx + 1 then sc ++ [[]] else sc) in H.
    assert (H1 : (length sc1 <= Z.to_nat n + 1)%nat).
    { subst sc1. destruct (Z.ltb_spec (Z.of_nat (length sc)) (idx + 1)); [|exact Hl].
      rewrite length_app. simpl.
      assert (Hle : (length sc <= Z.to_nat n)%nat).
      { apply Nat2Z.inj_le. rewrite Z2Nat.id by lia. lia. }
      lia. }
    unfold py_append_at in H. destruct (py_index _ _); [|discriminate].
    eapply IH; [|exact H]. rewrite list_modify_length. exact H1.
Qed.

Lemma nth_error_filter_order {A} (f : A -> bool) (l : list A) :
  forall i j a b, (i < j)%nat ->
  nth_error (filter f l) i = Some a -> nth_error (filter f l) j = Some b ->
  exists i' j', (i' < j')%nat /\ nth_error l i' = Some a /\ nth_error l j' = Some b.
Proof.
  induction l as [|x l IH]; intros i j a b Hij Ha Hb; simpl in *.
  - destruct i; discriminate.
  - destruct (f x).
    + destruct i as [|i], j as [|j]; try lia; simpl in Ha, Hb.
      * injection Ha as <-.
        apply nth_error_In, filter_In in Hb as [Hb _].
        apply In_nth_error in Hb as [j' Hj']. exists 0%nat, (S j').
        split; [lia|]. split; [reflexivity|exact Hj'].
      * destruct (IH i j a b ltac:(lia) Ha Hb) as [i' [j' [Hlt [Ha' Hb']]]].
        exists (S i'), (S j'). split; [lia|]. split; assumption.
    + destruct (IH i j a b Hij Ha Hb) as [i' [j' [Hlt [Ha' Hb']]]].
      exists (S i'), (S j'). split; [lia|]. split; assumption.
Qed.

Lemma spec_buckets_in (split_num w : Z) (p b : list chunk) :
  In b (spec_buckets split_num w p) ->
  exists k, (k <= Z.to_nat split_num)%nat /\ b = spec_group split_num w p k.
Proof.
  unfold spec_buckets. intros Hb. apply filter_In in Hb as [Hb _].
  apply in_map_iff in Hb as [k [<- Hk]]. apply in_seq in Hk.
  exists k. split; [lia|reflexivity].
Qed.

Lemma spec_buckets_order (split_num w : Z) (p bi bj : list chunk) (i j : nat) :
  (i < j)%nat ->
  nth_error (spec_buckets split_num w p) i = Some bi ->
  nth_error (spec_buckets split_num w p) j = Some bj ->
  exists ki kj, (ki < kj)%nat /\
    bi = spec_group split_num w p ki /\ bj = spec_group split_num w p kj.
Proof.
  unfold spec_buckets. intros Hij Hi Hj.
  destruct (nth_error_filter_order _ _ i j bi bj Hij Hi Hj) as [ki [kj [Hk [Hi' Hj']]]].
  rewrite nth_error_map, nth_error_seq in Hi', Hj'.
  destruct (Nat.ltb ki _), (Nat.ltb kj _); try discriminate.
  injection Hi' as <-. injection Hj' as <-. exists ki, kj. split; [exact Hk|].
  split; reflexivity.
Qed.

Lemma in_spec_group (split_num w : Z) (p : list chunk) (k : nat) (c : chunk) :
  In c (spec_group split_num w p k) ->
  In c p /\ Z.min (Qfloor (start c / inject_Z w)%Q) split_num = Z.of_nat k.
Proof.
  unfold spec_group, spec_bucket_index. intros H.
  apply filter_In in H as [H1 H2]. split; [exact H1|]. apply Z.eqb_eq. exact H2.
Qed.

Lemma Qdiv_mult_back (x : Q) (w : Z) : 1 <= w -> (x == (x / inject_Z w) * inject_Z w)%Q.
Proof.
  intros Hw. field. intros H. unfold Qeq in H. simpl in H. lia.
Qed.

Lemma Qinject_pos (w : Z) : 1 <= w -> (0 < inject_Z w)%Q.
Proof. intros Hw. unfold Qlt. simpl. lia. Qed.

Lemma divide_length_bound (chunks : list chunk) (split_num : Z)
    (bs : list (list chunk)) :
  divide_chunks_by_time chunks split_num = Ret bs ->
  (length bs <= Z.to_nat split_num + 1)%nat.
Proof.
  unfold divide_chunks_by_time.
  destruct (py_last chunks); [|discriminate].
  destruct (py_floordiv _ _); [|discriminate].
  destruct (divide_loop _ _ _ _) as [sc|] eqn:E; [|discriminate].
  intros H; injection H as <-.
  apply divide_loop_length_bound in E; [|rewrite repeat_length; lia].
  etransitivity; [apply filter_length_le | exact E].
Qed.

(** [_divide_chunks_by_time] returns at most [split_num + 1] buckets, for
    any input it does not raise on. *)
Theorem divide_chunks_by_time_max_buckets (chunks : list chunk) (split_num : Z)
    (bs : list (list chunk)) :
  divide_chunks_by_time chunks split_num = Ret bs ->
  (length bs <= Z.to_nat split_num + 1)%nat.
Proof. exact (divide_length_bound chunks split_num bs). Qed.

Lemma divide_chunks_by_time_max_buckets_witness :
  divide_chunks_by_time ten_chunks 5 = Ret [[ck 0 1; ck 10 1]; [ck 20 1; ck 30 1];
    [ck 40 1; ck 50 1]; [ck 60 1; ck 70 1]; [ck 80 1]; [ck 90 1]] /\
  (length [[ck 0 1; ck 10 1]; [ck 20 1; ck 30 1]; [ck 40 1; ck 50 1];
           [ck 60 1; ck 70 1]; [ck 80 1]; [ck 90 1]] <= Z.to_nat 5 + 1)%nat.
Proof.
  assert (H : divide_chunks_by_time ten_chunks 5 = Ret [[ck 0 1; ck 10 1]; [ck 20 1; ck 30 1];
    [ck 40 1; ck 50 1]; [ck 60 1; ck 70 1]; [ck 80 1]; [ck 90 1]]) by (vm_compute; reflexivity).
  split; [exact H|]. exact (divide_chunks_by_time_max_buckets _ _ _ H).
Defined.

(** Under the conditions of C1, every returned bucket covers one time slot
    [k]: each of its chunks starts at or after [k * bucket_width], and, unless
    [k = split_num] (the overflow bucket), before [(k + 1) * bucket_width]. *)
Theorem divide_bucket_time_slot (chunks : list chunk) (split_num : Z)
    (bs : list (list chunk)) (b : list chunk) :
  chunks <> [] -> 1 <= split_num -> times_nonneg chunks ->
  1 <= bucket_width_of chunks split_num ->
  divide_chunks_by_time chunks split_num = Ret bs -> In b bs ->
  exists k, 0 <= k <= split_num /\
    forall c, In c b ->
      (inject_Z (k * bucket_width_of chunks split_num) <= start c)%Q /\
      (k < split_num ->
       (start c < inject_Z ((k + 1) * bucket_width_of chunks split_num))%Q).
Proof.
  intros Hne Hs Hnn Hw Hd Hb.
  rewrite divide_chunks_by_time_spec in Hd by assumption. injection Hd as <-.
  set (w := bucket_width_of chunks split_num) in *.
  destruct (spec_buckets_in _ _ _ _ Hb) as [k [Hk ->]].
  exists (Z.of_nat k). split; [split; [lia|]; apply Nat2Z.inj_le in Hk; rewrite Z2Nat.id in Hk; lia|].
  intros c Hc. apply in_spec_group in Hc as [_ Hidx].
  set (y := (start c / inject_Z w)%Q) in *.
  assert (Hy : (start c == y * inject_Z w)%Q) by (apply Qdiv_mult_back; exact Hw).
  rewrite Hy, !inject_Z_mult. split.
  - apply Qmult_le_compat_r; [|apply Qlt_le_weak, Qinject_pos; exact Hw].
    eapply Qle_trans; [|apply Qfloor_le]. rewrite <- Zle_Qle. lia.
  - intros Hlt. apply Qmult_lt_compat_r; [apply Qinject_pos; exact Hw|].
    eapply Qlt_le_trans; [apply Qlt_floor|]. rewrite <- Zle_Qle. lia.
Qed.

Lemma divide_bucket_time_slot_witness :
  exists k, 0 <= k <= 5 /\
    forall c, In c [ck 10 1] ->
      (inject_Z (k * bucket_width_of [ck 0 2; ck 10 1] 5) <= start c)%Q /\
      (k < 5 -> (start c < inject_Z ((k + 1) * bucket_width_of [ck 0 2; ck 10 1] 5))%Q).
Proof.
  apply (divide_bucket_time_slot [ck 0 2; ck 10 1] 5 [[ck 0 2]; [ck 10 1]] [ck 10 1]).
  - discriminate.
  - lia.
  - intros c [<-|[<-|[]]]; split; unfold Qle; simpl; lia.
  - vm_compute. discriminate.
  - vm_compute. reflexivity.
  - right. left. reflexivity.
Defined.

(** Under the conditions of C1, the buckets are in time order: every chunk
    of an earlier bucket starts strictly before every chunk of a later one. *)
Theorem divide_buckets_chronological (chunks : list chunk) (split_num : Z)
    (bs : list (list chunk)) (i j : nat) (bi bj : list chunk) (c c' : chunk) :
  chunks <> [] -> 1 <= split_num -> times_nonneg chunks ->
  1 <= bucket_width_of chunks split_num ->
  divide_chunks_by_time chunks split_num = Ret bs ->
  (i < j)%nat -> nth_error bs i = Some bi -> nth_error bs j = Some bj ->
  In c bi -> In c' bj -> (start c < start c')%Q.
Proof.
  intros Hne Hs Hnn Hw Hd Hij Hi Hj Hc Hc'.
  rewrite divide_chunks_by_time_spec in Hd by assumption. injection Hd as <-.
  destruct (spec_buckets_order _ _ _ _ _ _ _ Hij Hi Hj) as [ki [kj [Hk [-> ->]]]].
  apply in_spec_group in Hc as [_ H1]. apply in_spec_group in Hc' as [_ H2].
  destruct (Qlt_le_dec (start c) (start c')) as [Hlt|Hle]; [exact Hlt|exfalso].
  assert (Hf : Qfloor (start c' / inject_Z (bucket_width_of chunks split_num)) <=
               Qfloor (start c / inject_Z (bucket_width_of chunks split_num))).
  { apply Qfloor_resp_le. unfold Qdiv. apply Qmult_le_compat_r; [exact Hle|].
    apply Qinv_le_0_compat, Qlt_le_weak, Qinject_pos. exact Hw. }
  lia.
Qed.

Lemma divide_buckets_chronological_witness :
  (start (ck 0 2) < start (ck 10 1))%Q.
Proof.
  apply (divide_buckets_chronological [ck 0 2; ck 10 1] 5 [[ck 0 2]; [ck 10 1]]
           0 1 [ck 0 2] [ck 10 1]).
  - discriminate.
  - lia.
  - intros c [<-|[<-|[]]]; split; unfold Qle; simpl; lia.
  - vm_compute. discriminate.
  - vm_compute. reflexivity.
  - lia.
  - reflexivity.
  - reflexivity.
  - left. reflexivity.
  - left. reflexivity.
Defined.

(** ** Effects of [run] on the process state *)

Lemma preserves_bind {A B X} (obs : world -> X) (m : M A) (k : A -> M B) :
  preserves obs m -> (forall a, preserves obs (k a)) -> preserves obs (mbind m k).
Proof.
  intros Hm Hk w. unfold mbind. specialize (Hm w).
  destruct (m w) as [a w1|e w1]; [|exact Hm].
  specialize (Hk a w1). destruct (k a w1); congruence.
Qed.

Lemma preserves_mret {A X} (obs : world -> X) (a : A) : preserves obs (mret a).
Proof. intros w. reflexivity. Qed.

Lemma preserves_raise {A X} (obs : world -> X) (e : py_error) : preserves obs (@raise A e).
Proof. intros w. reflexivity. Qed.

Lemma preserves_lift {A X} (obs : world -> X) (o : outcome A) : preserves obs (lift o).
Proof. destruct o; intros w; reflexivity. Qed.

Lemma preserves_gets {A X} (obs : world -> X) (f : world -> A) : preserves obs (gets f).
Proof. intros w. reflexivity. Qed.

Lemma preserves_env_get {X} (obs : world -> X) (k : pystr) : preserves obs (env_get k).
Proof.
  intros w. unfold env_get. destruct (find _ _) as [[]|]; reflexivity.
Qed.


Section RunEffects.

Local Open Scope nat_scope.

Variable chain : chain_oracle.
Variable trace : chain_trace.

Lemma chain_arun_preserves {X} (obs : world -> X) (verbose : bool) (docs : list pystr) :
  (forall d w, obs (log_chain d w) = obs w) ->
  (forall o w, obs (emit o w) = obs w) ->
  preserves obs (chain_arun chain trace verbose docs).
Proof.
  intros Hl He w. unfold chain_arun. cbv zeta.
  destruct verbose, (chain _ _); cbv beta iota; rewrite Hl; rewrite ?He; reflexivity.
Qed.

Lemma detail_loop_preserves {X} (obs : world -> X) (verbose : bool) :
  (forall d w, obs (log_chain d w) = obs w) ->
  (forall o w, obs (emit o w) = obs w) ->
  (forall n w, obs (add_sleep n w) = obs w) ->
  forall bs idx acc, preserves obs (detail_loop chain trace verbose bs idx acc).
Proof.
  intros Hl He Hs. induction bs as [|b bs IH]; intros idx acc; [apply preserves_mret|].
  simpl. apply preserves_bind.
  - destruct (Nat.ltb 0 idx); [intros w; apply Hs | apply preserves_mret].
  - intros _. apply preserves_bind; [apply chain_arun_preserves; assumption|].
    intros s. apply IH.
Qed.

Lemma run_preserves {X} (obs : world -> X) (self : youtube_summarize) :
  (forall d w, obs (log_chain d w) = obs w) ->
  (forall o w, obs (emit o w) = obs w) ->
  (forall n w, obs (add_sleep n w) = obs w) ->
  (forall f w, obs (set_files f w) = obs w) ->
  (forall d w, obs (set_dirs d w) = obs w) ->
  preserves obs (run chain trace self).
Proof.
  intros Hl He Hs Hf Hd. unfold run.
  apply preserves_bind; [apply chain_arun_preserves; assumption|]. intros cs.
  apply preserves_bind; [apply preserves_lift|]. intros bs.
  apply preserves_bind; [apply detail_loop_preserves; assumption|]. intros ds.
  apply preserves_bind; [apply save_summary_preserves; assumption|]. intros _.
  apply preserves_mret.
Qed.

Lemma run_environ (self : youtube_summarize) : preserves environ (run chain trace self).
Proof. apply run_preserves; reflexivity. Qed.

(** However the loop ends, each detail invocation but the first of the loop
    (when it starts at index 0) came after a sleep of 3 seconds. *)
Lemma detail_loop_sleeps (verbose : bool) (bs : list (list chunk)) :
  forall idx acc w,
  match detail_loop chain trace verbose bs idx acc w with
  | Done _ w' | Raised _ w' =>
      exists l, chain_log w' = chain_log w ++ l /\
        slept w' = slept w + 3 * (if Nat.ltb 0 idx then length l else length l - 1)
  end.
Proof.
  induction bs as [|b bs IH]; intros idx acc w.
  - exists []. rewrite app_nil_r. split; [reflexivity|].
    destruct (Nat.ltb 0 idx); simpl; lia.
  - cbn [detail_loop]. unfold mbind at 1.
    assert (Hw1 : exists w1, (if Nat.ltb 0 idx then time_sleep 3 else mret tt) w = Done tt w1 /\
                    chain_log w1 = chain_log w /\
                    slept w1 = slept w + (if Nat.ltb 0 idx then 3 else 0)).
    { destruct (Nat.ltb 0 idx); eexists; split; try reflexivity; split; try reflexivity;
        cbn; lia. }
    destruct Hw1 as [w1 [E1 [Hl1 Hs1]]]. rewrite E1. unfold mbind.
    pose proof (chain_arun_stdout chain trace verbose (documents b) w1) as Ha.
    pose proof (chain_arun_preserves slept verbose (documents b) (fun _ _ => eq_refl)
                  (fun _ _ => eq_refl) w1) as Hs2.
    destruct (chain_arun chain trace verbose (documents b) w1) as [s w2|e w2];
      destruct Ha as [Hl2 _].
    + specialize (IH (S idx) (acc ++ [s]) w2).
      replace (Nat.ltb 0 (S idx)) with true in IH by reflexivity.
      destruct (detail_loop chain trace verbose bs (S idx) (acc ++ [s]) w2) as [ds w3|e w3];
        destruct IH as [l [Hl3 Hs3]]; exists (documents b :: l);
        (split; [rewrite Hl3, Hl2, Hl1, <- app_assoc; reflexivity|]);
        rewrite Hs3, Hs2, Hs1; simpl length; destruct (Nat.ltb 0 idx); lia.
    + exists [documents b]. split; [rewrite Hl2, Hl1; reflexivity|].
      rewrite Hs2, Hs1. destruct (Nat.ltb 0 idx); simpl; lia.
Qed.

Lemma run_sleeps (self : youtube_summarize) (w : world) :
  match run chain trace self w with
  | Done _ w' | Raised _ w' =>
      exists l, chain_log w' = chain_log w ++ l /\ slept w' = slept w + 3 * (length l - 2)
  end.
Proof.
  unfold run, mbind at 1.
  pose proof (chain_arun_stdout chain trace (debug self) (documents (chunks self)) w) as Ha.
  pose proof (chain_arun_preserves slept (debug self) (documents (chunks self))
                (fun _ _ => eq_refl) (fun _ _ => eq_refl) w) as Hs1.
  destruct (chain_arun chain trace (debug self) (documents (chunks self)) w)
    as [cs w1|e1 w1]; destruct Ha as [Hl1 _].
  2:{ exists [documents (chunks self)]. split; [exact Hl1|]. rewrite Hs1. simpl. lia. }
  unfold mbind at 1.
  destruct (divide_chunks_by_time (chunks self) 5) as [bs|e2]; cbn [lift].
  2:{ unfold raise. exists [documents (chunks self)]. split; [exact Hl1|].
      rewrite Hs1. simpl. lia. }
  unfold mret at 1, mbind at 1.
  pose proof (detail_loop_sleeps (debug self) bs 0 [] w1) as Hd.
  destruct (detail_loop chain trace (debug self) bs 0 [] w1) as [ds w2|e3 w2];
    destruct Hd as [l [Hl2 Hs2]]; cbn [Nat.ltb Nat.leb] in Hs2.
  2:{ exists (documents (chunks self) :: l).
      split; [rewrite Hl2, Hl1, <- app_assoc; reflexivity|].
      rewrite Hs2, Hs1. simpl length. lia. }
  unfold mbind.
  pose proof (save_summary_preserves slept (summary_file self)
                (mk_summary (url self) (title self) ds cs) (fun _ _ => eq_refl)
                (fun _ _ => eq_refl) w2) as Hs3.
  pose proof (save_summary_log (summary_file self)
                (mk_summary (url self) (title self) ds cs) w2) as Hl3.
  destruct (save_summary (summary_file self) _ w2) as [[] w3|e4 w3]; unfold mret;
    exists (documents (chunks self) :: l);
    (split; [rewrite Hl3, Hl2, Hl1, <- app_assoc; reflexivity|]);
    rewrite Hs3, Hs2, Hs1; simpl length; lia.
Qed.

Lemma detail_loop_stdout (verbose : bool) (bs : list (list chunk)) :
  forall idx acc w ds w',
  detail_loop chain trace verbose bs idx acc w = Done ds w' ->
  stdout w' = stdout w ++
    (if verbose then traces trace (length (chain_log w)) (map documents bs) else []).
Proof.
  induction bs as [|b bs IH]; intros idx acc w ds w' H.
  - injection H as _ <-. destruct verbose; cbn [map traces]; rewrite app_nil_r; reflexivity.
  - cbn [detail_loop] in H. unfold mbind at 1 in H.
    assert (Hw1 : exists w1, (if Nat.ltb 0 idx then time_sleep 3 else mret tt) w = Done tt w1 /\
                    chain_log w1 = chain_log w /\ stdout w1 = stdout w).
    { destruct (Nat.ltb 0 idx); eexists; split; try reflexivity; split; reflexivity. }
    destruct Hw1 as [w1 [E1 [Hl1 Ho1]]]. rewrite E1 in H. unfold mbind in H.
    pose proof (chain_arun_stdout chain trace verbose (documents b) w1) as Ha.
    destruct (chain_arun chain trace verbose (documents b) w1) as [s w2|e w2];
      [|discriminate].
    destruct Ha as [Hl2 Ho2].
    rewrite (IH _ _ _ _ _ H), Ho2, Hl2, Ho1, Hl1, length_app. cbn [length].
    rewrite Nat.add_1_r. destruct verbose; cbn [map traces]; rewrite ?app_nil_r, ?app_assoc;
      reflexivity.
Qed.

(** With [debug] set, a run that returns has printed the trace of each of
    its invocations, in order; without it, nothing. *)
Lemma run_done_stdout (self : youtube_summarize) (w : world) r w' :
  run chain trace self w = Done r w' ->
  exists bs, divide_chunks_by_time (chunks self) 5 = Ret bs /\
    stdout w' = stdout w ++
      (if debug self
       then traces trace (length (chain_log w)) (documents (chunks self) :: map documents bs)
       else []).
Proof.
  unfold run, mbind at 1.
  pose proof (chain_arun_stdout chain trace (debug self) (documents (chunks self)) w) as Ha.
  destruct (chain_arun chain trace (debug self) (documents (chunks self)) w)
    as [cs w1|e1 w1]; [|discriminate].
  destruct Ha as [Hl1 Ho1].
  unfold mbind at 1.
  destruct (divide_chunks_by_time (chunks self) 5) as [bs|e2]; cbn [lift]; [|discriminate].
  unfold mret at 1, mbind at 1.
  destruct (detail_loop chain trace (debug self) bs 0 [] w1) as [ds w2|e3 w2] eqn:Hd;
    [|discriminate].
  apply detail_loop_stdout in Hd. unfold mbind.
  pose proof (save_summary_preserves stdout (summary_file self)
                (mk_summary (url self) (title self) ds cs) (fun _ _ => eq_refl)
                (fun _ _ => eq_refl) w2) as Hs.
  destruct (save_summary (summary_file self) _ w2) as [[] w3|e4 w3]; [|discriminate].
  unfold mret. intros H; injection H as _ <-. exists bs. split; [reflexivity|].
  rewrite Hs, Hd, Ho1, Hl1, length_app. cbn [length]. rewrite Nat.add_1_r.
  destruct (debug self); cbn [traces]; rewrite ?app_nil_r, ?app_assoc; reflexivity.
Qed.




End RunEffects.


(** However a run ends, also when the chain fails on some invocation, the
    time it slept is 3 seconds for each detail invocation it made after the
    first one: the sleeps come before the second, third, ... detail
    invocations and none follows the last one. A run that returns slept
    [3 * (number of buckets - 1)] seconds in all. *)
Theorem run_sleeps_between_buckets (chain : chain_oracle) (trace : chain_trace)
    (self : youtube_summarize) (w : world) :
  match run chain trace self w with
  | Done r w' =>
      (exists l, chain_log w' = chain_log w ++ l /\
                 slept w' = (slept w + 3 * (length l - 2))%nat) /\
      exists bs, divide_chunks_by_time (chunks self) 5 = Ret bs /\
        length (s_detail r) = length bs /\
        slept w' = (slept w + 3 * (length bs - 1))%nat
  | Raised _ w' =>
      exists l, chain_log w' = chain_log w ++ l /\
                slept w' = (slept w + 3 * (length l - 2))%nat
  end.
Proof.
  pose proof (run_sleeps chain trace self w) as Hs.
  destruct (run chain trace self w) as [r w'|e w'] eqn:E; [|exact Hs].
  split; [exact Hs|].
  destruct (run_done chain trace self w r w' E) as [bs [Hd [_ [Hl [Hlen _]]]]].
  exists bs. split; [exact Hd|]. split; [exact Hlen|].
  destruct Hs as [l [Hl' Hs']]. rewrite Hl in Hl'. apply app_inv_head in Hl'.
  rewrite Hs', <- Hl'. simpl length. rewrite length_map. lia.
Qed.

Lemma run_done_saved (chain : chain_oracle) (trace : chain_trace) (self : youtube_summarize)
    (w w' : world) (r : summary_record) :
  run chain trace self w = Done r w' ->
  s_url r = url self /\ s_title r = title self /\
  files w' (summary_file self) = Some (dumps (summary_json r)) /\
  dirs w' (py_dirname (summary_file self)) = true.
Proof.
  unfold run, mbind at 1.
  destruct (chain_arun chain trace (debug self) (documents (chunks self)) w)
    as [cs w1|e1 w1]; [|discriminate].
  unfold mbind at 1.
  destruct (divide_chunks_by_time (chunks self) 5) as [bs|e2]; cbn [lift]; [|discriminate].
  unfold mret at 1, mbind at 1.
  destruct (detail_loop chain trace (debug self) bs 0 [] w1) as [ds w2|e3 w2]; [|discriminate].
  unfold mbind.
  destruct (save_summary (summary_file self) _ w2) as [u w3|e4 w3] eqn:Hs; [|discriminate].
  unfold mret. intros H; injection H as <- <-.
  apply save_summary_done_inv in Hs. split; [reflexivity|]. split; [reflexivity|]. exact Hs.
Qed.

(** A run that returns has stored exactly the record it returns, whose
    [url] and [title] are the object's, in [summary_file], and the
    directory of that file exists afterwards. *)
Theorem run_persists_result (chain : chain_oracle) (trace : chain_trace)
    (self : youtube_summarize) (w w' : world) (r : summary_record) :
  run chain trace self w = Done r w' ->
  s_url r = url self /\ s_title r = title self /\
  files w' (summary_file self) = Some (dumps (summary_json r)) /\
  dirs w' (py_dirname (summary_file self)) = true.
Proof.
exact (run_done_saved chain trace self w w' r). Qed.

Lemma run_persists_result_witness :
  exists r w', run answering_chain quiet_trace two_chunk_video empty_world = Done r w' /\
    s_url r = url two_chunk_video /\ s_title r = title two_chunk_video /\
    files w' (summary_file two_chunk_video) = Some (dumps (summary_json r)) /\
    dirs w' (py_dirname (summary_file two_chunk_video)) = true.
Proof.
  destruct (run answering_chain quiet_trace two_chunk_video empty_world) as [r w'|e w'] eqn:E.
  - exists r, w'. split; [reflexivity|].
    exact (run_persists_result answering_chain quiet_trace two_chunk_video empty_world w' r E).
  - exfalso. vm_compute in E. discriminate.
Defined.

(** Whatever its outcome, a run changes no file but [summary_file], and the
    only directories it creates are the directory of [summary_file] and
    ancestors of it ([os.makedirs]); it removes none. *)
Theorem run_touches_only_summary_file (chain : chain_oracle) (trace : chain_trace)
    (self : youtube_summarize) (w : world) :
  match run chain trace self w with
  | Done _ w' | Raised _ w' =>
      (forall q, q <> summary_file self -> files w' q = files w q) /\
      (forall q, dirs w' q <> dirs w q ->
         dirs w' q = true /\
         exists n, q = Nat.iter n py_dirname (py_dirname (summary_file self)))
  end.
Proof.
  unfold run, mbind at 1.
  pose proof (chain_arun_preserves chain trace files (debug self) (documents (chunks self))
                (fun _ _ => eq_refl) (fun _ _ => eq_refl) w) as Hf1.
  pose proof (chain_arun_preserves chain trace dirs (debug self) (documents (chunks self))
                (fun _ _ => eq_refl) (fun _ _ => eq_refl) w) as Hd1.
  destruct (chain_arun chain trace (debug self) (documents (chunks self)) w)
    as [cs w1|e1 w1]; [|split; intros; congruence].
  unfold mbind at 1.
  destruct (divide_chunks_by_time (chunks self) 5) as [bs|e2]; cbn [lift];
    [|unfold raise; split; intros; congruence].
  unfold mret at 1, mbind at 1.
  pose proof (detail_loop_preserves chain trace files (debug self) (fun _ _ => eq_refl)
                (fun _ _ => eq_refl) (fun _ _ => eq_refl) bs 0 [] w1) as Hf2.
  pose proof (detail_loop_preserves chain trace dirs (debug self) (fun _ _ => eq_refl)
                (fun _ _ => eq_refl) (fun _ _ => eq_refl) bs 0 [] w1) as Hd2.
  destruct (detail_loop chain trace (debug self) bs 0 [] w1) as [ds w2|e3 w2];
    [|split; intros; congruence].
  unfold mbind.
  pose proof (save_summary_frame (summary_file self)
                (mk_summary (url self) (title self) ds cs) w2) as Hs.
  cbn beta iota in Hf2, Hd2. rewrite Hd1 in Hd2. rewrite Hf1 in Hf2.
  destruct (save_summary (summary_file self) _ w2) as [u w3|e4 w3];
    destruct Hs as [Hsf Hsd]; unfold mret; rewrite Hf2 in Hsf; rewrite Hd2 in Hsd;
    split; [exact Hsf|exact Hsd|exact Hsf|exact Hsd].
Qed.






(** A video without transcript chunks: the concise invocation runs on no
    document, then [self.chunks[-1]] raises [IndexError]; nothing is
    written or slept, and the only output is the chain's trace when
    [debug] is set. *)
Theorem run_empty_transcript (chain : chain_oracle) (trace : chain_trace)
    (self : youtube_summarize) (w : world) (s : pystr) :
  chunks self = [] -> chain (length (chain_log w)) [] = Some s ->
  run chain trace self w =
    Raised IndexError
      (log_chain [] (if debug self then emit (trace (length (chain_log w)) []) w else w)).
Proof.
  intros Hc Hs. unfold run, mbind, chain_arun. cbv zeta. rewrite Hc. cbn [documents map].
  rewrite Hs. reflexivity.
Qed.

Lemma run_empty_transcript_witness :
  run answering_chain call_trace debug_silent_video empty_world =
    Raised IndexError
      (log_chain [] (if debug debug_silent_video
                     then emit (call_trace (length (chain_log empty_world)) []) empty_world
                     else empty_world)).
Proof.
  apply (run_empty_transcript answering_chain call_trace debug_silent_video empty_world [0%N]);
    reflexivity.
Defined.

(** A run that returns invoked the chain at most 7 times (the concise
    invocation and one per bucket) and returns at most 6 detail strings. *)
Theorem run_chain_calls_bound (chain : chain_oracle) (trace : chain_trace)
    (self : youtube_summarize) (w w' : world) (r : summary_record) :
  run chain trace self w = Done r w' ->
  (length (chain_log w') <= length (chain_log w) + 7 /\ length (s_detail r) <= 6)%nat.
Proof.
  intros H. destruct (run_done chain trace self w r w' H) as [bs [Hd [_ [Hl [Hlen _]]]]].
  apply divide_length_bound in Hd. simpl in Hd.
  rewrite Hl, length_app. simpl. rewrite length_map. lia.
Qed.

Lemma run_chain_calls_bound_witness :
  exists r w', run answering_chain quiet_trace two_chunk_video empty_world = Done r w' /\
    (length (chain_log w') <= length (chain_log empty_world) + 7 /\ length (s_detail r) <= 6)%nat.
Proof.
  destruct (run answering_chain quiet_trace two_chunk_video empty_world) as [r w'|e w'] eqn:E.
  - exists r, w'. split; [reflexivity|].
    exact (run_chain_calls_bound answering_chain quiet_trace two_chunk_video empty_world w' r E).
  - exfalso. vm_compute in E. discriminate.
Defined.

(** ** The [summary] entry point and what [qa] then reads *)

Lemma mbind_mret {A B} (a : A) (k : A -> M B) : mbind (mret a) k = k a.
Proof. reflexivity. Qed.

Lemma env_get_cases (k : pystr) (w : world) :
  (exists v, env_get k w = Done v w) \/ env_get k w = Raised KeyError w.
Proof.
  unfold env_get. destruct (find _ _) as [[k' v]|]; [left; exists v|right]; reflexivity.
Qed.

Lemma env_get_same_environ (k v : pystr) (w w' : world) :
  environ w' = environ w -> env_get k w = Done v w -> env_get k w' = Done v w'.
Proof.
  unfold env_get. intros He. rewrite He.
  destruct (find _ _) as [[k' v']|]; [|discriminate]. intros H; injection H as ->.
  reflexivity.
Qed.

Lemma fold_print (l : list pystr) (w : world) :
  fold_right (fun s m => print [OText ([12539] ++ s ++ [10] ++ [10])%N] ;;; m) (mret tt) l w =
  Done tt (emit (map (fun s => OText ([12539] ++ s ++ [10] ++ [10])%N) l) w).
Proof.
  revert w. induction l as [|s l IH]; intros w.
  - unfold emit. simpl. rewrite app_nil_r. destruct w; reflexivity.
  - simpl. unfold mbind at 1, print at 1, modify at 1. rewrite IH, emit_emit. reflexivity.
Qed.

(** [summary] either fails in its setup, with the state untouched, or runs
    the summarizer on the fetched video and prints the record it returns. *)
Lemma summary_cmd_cases (setup_llm : outcome unit) (api : video_api) (chain : chain_oracle)
    (trace : chain_trace) (dbg : bool) (video_id : pystr) (w : world) :
  (exists e, summary_cmd setup_llm api chain trace dbg video_id w = Raised e w /\
     ((video_id = [] /\ e = ValueError) \/
      (video_id <> [] /\
       (env_get SUMMARY_STORE_DIR w = Raised e w \/ setup_llm = Exc e \/
        video_title api (py "https://www.youtube.com/watch?v=" ++ video_id)%N = Exc e \/
        transcript_chunks api video_id = Exc e)))) \/
  exists d t cs, video_id <> [] /\ env_get SUMMARY_STORE_DIR w = Done d w /\
    setup_llm = Ret tt /\
    video_title api (py "https://www.youtube.com/watch?v=" ++ video_id)%N = Ret t /\
    transcript_chunks api video_id = Ret cs /\
    summary_cmd setup_llm api chain trace dbg video_id w =
      match run chain trace
              (mk_yts video_id dbg (py "https://www.youtube.com/watch?v=" ++ video_id)%N t
                 (summary_path d video_id) cs) w with
      | Done r w1 => Done tt (emit (summary_output r) w1)
      | Raised e w1 => Raised e w1
      end.
Proof.
  unfold summary_cmd, youtube_summarize_init.
  destruct (pystr_eqb video_id []) eqn:Hv.
  { left. exists ValueError. split; [reflexivity|left; split; [|reflexivity]].
    apply pystr_eqb_nil. exact Hv. }
  assert (Hv' : video_id <> []) by (intros ->; discriminate).
  destruct (env_get_cases SUMMARY_STORE_DIR w) as [[d Hd]|Hd].
  2:{ left. exists KeyError. split; [|right; split; [exact Hv'|left; exact Hd]].
      unfold mbind. rewrite Hd. reflexivity. }
  destruct setup_llm as [[]|e] eqn:Hs.
  2:{ left. exists e. split; [|right; split; [exact Hv'|right; left; reflexivity]].
      unfold mbind. rewrite Hd. reflexivity. }
  unfold prepare.
  destruct (video_title api (py "https://www.youtube.com/watch?v=" ++ video_id)%N)
    as [t|e] eqn:Ht.
  2:{ left. exists e. split; [|right; split; [exact Hv'|right; right; left; first [exact Ht|reflexivity]]].
      unfold mbind. rewrite Hd. cbn [lift mret url vid summary_file]. rewrite Ht.
      reflexivity. }
  destruct (transcript_chunks api video_id) as [cs|e] eqn:Hc.
  2:{ left. exists e. split; [|right; split; [exact Hv'|right; right; right; first [exact Hc|reflexivity]]].
      unfold mbind. rewrite Hd. cbn [lift mret url vid summary_file]. rewrite Ht, Hc.
      reflexivity. }
  right. exists d, t, cs. split; [exact Hv'|]. split; [exact Hd|]. split; [reflexivity|].
  split; [first [exact Ht|reflexivity]|]. split; [first [exact Hc|reflexivity]|].
  unfold mbind at 1 2 3. rewrite Hd. cbn [lift mret url vid debug summary_file].
  rewrite Ht, Hc. cbn [lift]. rewrite !mbind_mret. cbv beta. unfold mbind at 1.
  destruct (run chain trace _ w) as [r w1|e w1]; [|reflexivity].
  unfold mbind at 1, print at 1, modify at 1, mbind at 1.
  rewrite fold_print. unfold print, modify. rewrite !emit_emit. reflexivity.
Qed.

Lemma qa_summary_hint_stored (vid d : pystr) (r : summary_record) (w : world) :
  env_get SUMMARY_STORE_DIR w = Done d w ->
  files w (summary_path d vid) = Some (dumps (summary_json r)) ->
  qa_summary_hint vid w =
    Done tt (emit [OText (py "(Summary) "); OText (s_concise r); OText [10; 10]%N] w).
Proof.
  intros Henv Hf. unfold qa_summary_hint, mbind at 1. rewrite Henv.
  unfold mbind, os_path_exists, gets. rewrite Hf. cbv beta iota.
  unfold read_text. rewrite Hf.
  rewrite universal_newlines_id by apply dumps_summary_no_cr.
  rewrite loads_summary. reflexivity.
Qed.


(** When [SUMMARY_STORE_DIR/vid] holds a summary record as [run] writes it,
    [qa] prints [(Summary) ] followed by the record's [concise] string and a
    blank line, and changes nothing else. *)
Theorem qa_hint_prints_stored_concise (vid d : pystr) (r : summary_record) (w : world) :
  env_get SUMMARY_STORE_DIR w = Done d w ->
  files w (summary_path d vid) = Some (dumps (summary_json r)) ->
  qa_summary_hint vid w =
    Done tt (emit [OText (py "(Summary) "); OText (s_concise r); OText [10; 10]%N] w).
Proof. exact (qa_summary_hint_stored vid d r w). Qed.

Lemma qa_hint_prints_stored_concise_witness :
  let r := mk_summary (py "https://www.youtube.com/watch?v=vid") (py "A talk")
             [py "part one"] (py "short") in
  let w := set_files (update_file (py "/data/summary/vid") (dumps (summary_json r))
                        (fun _ => None)) bare_world in
  qa_summary_hint (py "vid") w =
    Done tt (emit [OText (py "(Summary) "); OText (s_concise r); OText [10; 10]%N] w).
Proof.
  intros r w. apply (qa_hint_prints_stored_concise (py "vid") (py "/data/summary") r w);
    reflexivity.
Defined.

(** A failure of [summary] before the run leaves the state as it was (no
    chain call, file, directory, sleep or output) and is the exception of
    the step that failed: [ValueError] for an empty video id, the
    [KeyError] of an unset [SUMMARY_STORE_DIR], or the exception raised by
    the LLM setup, the title lookup or the transcript fetch. Any other
    failure is a failure of [run] on the fetched video. *)
Theorem summary_cmd_setup_errors (setup_llm : outcome unit) (api : video_api)
    (chain : chain_oracle) (trace : chain_trace) (dbg : bool) (vid : pystr)
    (w w' : world) (e : py_error) :
  summary_cmd setup_llm api chain trace dbg vid w = Raised e w' ->
  (w' = w /\
   ((vid = [] /\ e = ValueError) \/
    (vid <> [] /\
     (env_get SUMMARY_STORE_DIR w = Raised e w \/ setup_llm = Exc e \/
      video_title api (py "https://www.youtube.com/watch?v=" ++ vid)%N = Exc e \/
      transcript_chunks api vid = Exc e)))) \/
  exists d t cs, vid <> [] /\ env_get SUMMARY_STORE_DIR w = Done d w /\
    setup_llm = Ret tt /\
    video_title api (py "https://www.youtube.com/watch?v=" ++ vid)%N = Ret t /\
    transcript_chunks api vid = Ret cs /\
    run chain trace (mk_yts vid dbg (py "https://www.youtube.com/watch?v=" ++ vid)%N t
                       (summary_path d vid) cs) w = Raised e w'.
Proof.
  intros H.
  destruct (summary_cmd_cases setup_llm api chain trace dbg vid w)
    as [[e' [H' Hk]]|[d [t [cs [Hv [Hd [Hs [Ht [Hc H']]]]]]]]]; rewrite H' in H.
  - injection H as <- <-. left. split; [reflexivity|exact Hk].
  - right. exists d, t, cs. do 5 (split; [assumption|]).
    destruct (run chain trace _ w) as [r w1|e1 w1]; [discriminate|].
    injection H as <- <-. reflexivity.
Qed.

(** The title lookup of a video without [videoDetails] raises [KeyError]
    before anything is done. *)
Lemma summary_cmd_setup_errors_witness :
  exists w', summary_cmd (Ret tt) title_keyerror_api answering_chain quiet_trace false
               (py "vid") bare_world = Raised KeyError w' /\ w' = bare_world.
Proof.
  exists bare_world. split; [reflexivity|].
  destruct (summary_cmd_setup_errors (Ret tt) title_keyerror_api answering_chain quiet_trace
              false (py "vid") bare_world bare_world KeyError ltac:(reflexivity))
    as [[Hw _]|[d [t [cs [_ [_ [_ [Ht _]]]]]]]]; [exact Hw|discriminate Ht].
Defined.

(** When [summary] completes, it has printed the chain's trace of each
    invocation (with [--debug]), then the detail heading, one bullet per
    detail summary (one per bucket of the fetched transcript, in order) and
    the concise block; the record it printed is stored under
    [SUMMARY_STORE_DIR/vid], so a following [qa] of the same video prints
    its [concise] string as the summary hint. *)
Theorem summary_cmd_then_qa_hint (setup_llm : outcome unit) (api : video_api)
    (chain : chain_oracle) (trace : chain_trace) (dbg : bool) (vid : pystr)
    (w w' : world) :
  summary_cmd setup_llm api chain trace dbg vid w = Done tt w' ->
  exists d r cs bs,
    env_get SUMMARY_STORE_DIR w = Done d w /\
    transcript_chunks api vid = Ret cs /\
    divide_chunks_by_time cs 5 = Ret bs /\ length (s_detail r) = length bs /\
    s_url r = (py "https://www.youtube.com/watch?v=" ++ vid)%N /\
    video_title api (s_url r) = Ret (s_title r) /\
    stdout w' = stdout w ++
      (if dbg then traces trace (length (chain_log w)) (documents cs :: map documents bs)
       else []) ++ summary_output r /\
    files w' (summary_path d vid) = Some (dumps (summary_json r)) /\
    qa_summary_hint vid w' =
      Done tt (emit [OText (py "(Summary) "); OText (s_concise r); OText [10; 10]%N] w').
Proof.
  intros H.
  destruct (summary_cmd_cases setup_llm api chain trace dbg vid w)
    as [[e [H' _]]|[d [t [cs [_ [Hd [_ [Ht [Hc H']]]]]]]]]; rewrite H' in H; [discriminate|].
  set (ys := mk_yts vid dbg (py "https://www.youtube.com/watch?v=" ++ vid)%N t
               (summary_path d vid) cs) in H.
  destruct (run chain trace ys w) as [r w1|e1 w1] eqn:Hr; [|discriminate].
  injection H as <-.
  destruct (run_done chain trace ys w r w1 Hr) as [bs [Hdiv [_ [_ [Hlen _]]]]].
  destruct (run_done_saved chain trace ys w w1 r Hr) as [Hu [Hti [Hf _]]].
  destruct (run_done_stdout chain trace ys w r w1 Hr) as [bs' [Hdiv' Ho]].
  rewrite Hdiv in Hdiv'. injection Hdiv' as <-.
  pose proof (run_environ chain trace ys w) as He.
  rewrite Hr in He. cbn [ys chunks url title summary_file debug] in Hdiv, Hu, Hti, Hf, Ho.
  assert (Hf' : files (emit (summary_output r) w1) (summary_path d vid) =
                Some (dumps (summary_json r))) by exact Hf.
  exists d, r, cs, bs.
  split; [exact Hd|]. split; [exact Hc|]. split; [exact Hdiv|]. split; [exact Hlen|].
  split; [exact Hu|]. split; [rewrite Hu, Hti; exact Ht|].
  split; [unfold emit; cbn [stdout]; rewrite Ho, app_assoc; reflexivity|].
  split; [exact Hf'|].
  apply (qa_summary_hint_stored vid d r); [|exact Hf'].
  apply (env_get_same_environ _ _ w); [exact He|exact Hd].
Qed.

Lemma summary_cmd_then_qa_hint_witness :
  exists w', summary_cmd (Ret tt) sample_api answering_chain call_trace true (py "vid")
               bare_world = Done tt w' /\
  exists d r cs bs,
    env_get SUMMARY_STORE_DIR bare_world = Done d bare_world /\
    transcript_chunks sample_api (py "vid") = Ret cs /\
    divide_chunks_by_time cs 5 = Ret bs /\ length (s_detail r) = length bs /\
    s_url r = (py "https://www.youtube.com/watch?v=" ++ py "vid")%N /\
    video_title sample_api (s_url r) = Ret (s_title r) /\
    stdout w' = stdout bare_world ++
      (if true then traces call_trace (length (chain_log bare_world))
                      (documents cs :: map documents bs)
       else []) ++ summary_output r /\
    files w' (summary_path d (py "vid")) = Some (dumps (summary_json r)) /\
    qa_summary_hint (py "vid") w' =
      Done tt (emit [OText (py "(Summary) "); OText (s_concise r); OText [10; 10]%N] w').
Proof.
  destruct (summary_cmd (Ret tt) sample_api answering_chain call_trace true (py "vid")
              bare_world) as [u w'|e w'] eqn:E.
  - destruct u. exists w'. split; [reflexivity|].
    exact (summary_cmd_then_qa_hint (Ret tt) sample_api answering_chain call_trace true
             (py "vid") bare_world w' E).
  - exfalso. vm_compute in E. discriminate.
Defined.



(** The summary hint of [qa] crashes with [KeyError] when
    [SUMMARY_STORE_DIR] is unset, and with [IsADirectoryError] when
    [SUMMARY_STORE_DIR/vid] is a directory; the state is unchanged. *)
Theorem qa_summary_hint_errors (vid d : pystr) (w : world) :
  (env_get SUMMARY_STORE_DIR w = Raised KeyError w ->
   qa_summary_hint vid w = Raised KeyError w) /\
  (env_get SUMMARY_STORE_DIR w = Done d w ->
   files w (summary_path d vid) = None -> dirs w (summary_path d vid) = true ->
   qa_summary_hint vid w = Raised IsADirectoryError w).
Proof.
  split.
  - intros Henv. unfold qa_summary_hint, mbind at 1. rewrite Henv. reflexivity.
  - intros Henv Hf Hd. unfold qa_summary_hint, mbind at 1. rewrite Henv.
    unfold mbind, os_path_exists, gets. rewrite Hf, Hd. cbv beta iota.
    unfold read_text. rewrite Hf, Hd. reflexivity.
Qed.

Lemma qa_summary_hint_errors_witness :
  qa_summary_hint (py "vid") empty_world = Raised KeyError empty_world /\
  qa_summary_hint (py "vid") (set_dirs (fun _ => true) bare_world) =
    Raised IsADirectoryError (set_dirs (fun _ => true) bare_world).
Proof.
  split.
  - apply (proj1 (qa_summary_hint_errors (py "vid") [] empty_world)). reflexivity.
  - apply (proj2 (qa_summary_hint_errors (py "vid") (py "/data/summary")
                    (set_dirs (fun _ => true) bare_world))); reflexivity.
Defined.
